(** * Certificate manager of the gateway (register / renew) and the rule
    store's getRules, embedded in Rocq.

    Sources: the certificate manager (register, renew, writeCertificates)
    and src/rules-engine/Database.js (getRules).

    JavaScript values are modelled by [json] (decoded JSON payloads) and
    [val] (anything a callback can receive or a [throw] can carry).  The
    async functions are written in a state/exception monad [M]: the state
    holds the files on disk, the settings store and the trace of observable
    effects (network requests, ACME calls, file writes, callback calls,
    log lines).  A rejected promise / thrown exception is [Throw v]. *)

From Stdlib Require Import String Ascii List ZArith Bool Lia.
Import ListNotations.
Local Set Warnings "-register-all".
Open Scope string_scope.

(* ------------------------------------------------------------------ *)
(** ** JavaScript values *)

Inductive json : Type :=
| JNull
| JBool (b : bool)
| JNum (z : Z)            (* only integral numbers are modelled *)
| JStr (s : string)
| JArr (l : list json)
| JObj (fields : list (string * json)).

(** An Error object: its [detail] and [message] properties. *)
Record exn : Type := mkExn {
  detail : option string;
  message : option string;
}.

Inductive val : Type :=
| VUndef
| VJson (j : json)
| VErr (e : exn)
| VStr (s : string).

(** JSON.parse keeps the last occurrence of a duplicated key. *)
Fixpoint assoc_last (k : string) (fs : list (string * json)) : option json :=
  match fs with
  | [] => None
  | (k', v) :: r =>
      match assoc_last k r with
      | Some w => Some w
      | None => if String.eqb k k' then Some v else None
      end
  end.

Definition type_error : exn :=
  mkExn None (Some "TypeError: Cannot read properties of null").

(** Property read [j.k] on a decoded JSON value: [null] throws, objects
    look the key up, other primitives and arrays have no such property. *)
Definition get_prop (j : json) (k : string) : val + val :=
  match j with
  | JNull => inr (VErr type_error)
  | JObj fs => match assoc_last k fs with
               | Some v => inl (VJson v)
               | None => inl VUndef
               end
  | _ => inl VUndef
  end.

(** JavaScript truthiness. *)
Definition json_truthy (j : json) : bool :=
  match j with
  | JNull => false
  | JBool b => b
  | JNum z => negb (Z.eqb z 0)
  | JStr s => negb (String.eqb s "")
  | JArr _ | JObj _ => true
  end.

Definition truthy (v : val) : bool :=
  match v with
  | VUndef => false
  | VJson j => json_truthy j
  | VErr _ => true
  | VStr s => negb (String.eqb s "")
  end.

Fixpoint digits_of_nat (fuel n : nat) (acc : string) : string :=
  match fuel with
  | O => acc
  | S f =>
      let acc' := String (ascii_of_nat (48 + Nat.modulo n 10)) acc in
      if Nat.ltb n 10 then acc' else digits_of_nat f (Nat.div n 10) acc'
  end.

Definition z_to_string (z : Z) : string :=
  let n := Z.to_nat (Z.abs z) in
  let d := digits_of_nat (S n) n EmptyString in
  if Z.ltb z 0 then String "-" d else d.

(** String conversion used by template literals ([`${x}`]). *)
Fixpoint json_to_string (j : json) : string :=
  match j with
  | JNull => "null"
  | JBool true => "true"
  | JBool false => "false"
  | JNum z => z_to_string z
  | JStr s => s
  | JArr l =>
      (fix join (l : list json) : string :=
         match l with
         | [] => ""
         | [x] => match x with JNull => "" | _ => json_to_string x end
         | x :: r => (match x with JNull => "" | _ => json_to_string x end)
                       ++ "," ++ join r
         end) l
  | JObj _ => "[object Object]"
  end.

Definition val_to_string (v : val) : string :=
  match v with
  | VUndef => "undefined"
  | VJson j => json_to_string j
  | VErr e => match message e with
              | Some m => "Error: " ++ m
              | None => "Error"
              end
  | VStr s => s
  end.

(* ------------------------------------------------------------------ *)
(** ** Collaborator outcomes *)

(** Text of an HTTP response body: the serialisation of a JSON value, or
    text that is not valid JSON. *)
Inductive payload : Type :=
| PJson (j : json)
| PNotJson (s : string).

(** [res.text()]: the body, or a failure while reading the stream. *)
Inductive text_result : Type :=
| Text (p : payload)
| TextFail (e : exn).

(** [fetch(url)]: a response (any status code) or a network failure. *)
Inductive fetch_result : Type :=
| FetchOk (status : Z) (body : text_result)
| FetchFail (e : exn).

(** Result of one [fs.writeFileSync] taken from the environment: [None]
    is success; [Some (e, left)] is a failure throwing [e] that leaves the
    file as it was ([left = None], e.g. the open failed) or with the
    partial text [left] (the file was truncated, then a write failed). *)
Definition write_outcome : Type := option (exn * option string).

Record bundle : Type := mkBundle {
  cert : string;
  privkey : string;
  chain : string;
}.

(** Outcomes of the collaborators for one invocation.  [acme_rounds] are
    the challenge rounds greenlock runs inside [le.register]: the
    key-authorization digest it hands to [leDnsResponse] and the outcome of
    the resulting dnsconfig request; [acme_result] is what [le.register]
    resolves to (or rejects with) once every round has been answered. *)
Record env : Type := mkEnv {
  registration_endpoint : string;   (* config ssltunnel.registration_endpoint *)
  certemail : string;               (* config ssltunnel.certemail *)
  ssl_domain : string;              (* config ssltunnel.domain *)
  sslDir : string;                  (* UserProfile.sslDir *)
  subscribe_out : fetch_result;
  settings_set_fail : option exn;
  settings_get_fail : option exn;
  acme_rounds : list (string * fetch_result);
  acme_result : bundle + exn;
  write_fail : string -> write_outcome;
  setemail_out : fetch_result;
}.

(* ------------------------------------------------------------------ *)
(** ** Observable effects and the monad *)

Inductive event : Type :=
| EFetch (url : string)
| ESettingsSet (key : string) (v : json)
| EAcme (domain : string) (challengeType : string) (email : string)
| EWrite (file : string) (contents : string)
| ECallback (arg : val)
| ELog (msg : string).

Record state : Type := mkState {
  files : string -> option string;
  settings : string -> option json;
  trace : list event;
}.

Inductive res (A : Type) : Type :=
| Ok (a : A)
| Throw (v : val).
Arguments Ok {A} a.
Arguments Throw {A} v.

Definition M (A : Type) : Type := state -> state * res A.

Definition ret {A} (a : A) : M A := fun s => (s, Ok a).
Definition throw {A} (v : val) : M A := fun s => (s, Throw v).

Definition bind {A B} (m : M A) (k : A -> M B) : M B :=
  fun s => match m s with
           | (s', Ok a) => k a s'
           | (s', Throw v) => (s', Throw v)
           end.

(** [try { m } catch (e) { h(e) }] *)
Definition try_catch {A} (m : M A) (h : val -> M A) : M A :=
  fun s => match m s with
           | (s', Ok a) => (s', Ok a)
           | (s', Throw v) => h v s'
           end.

Notation "x <- m ;; k" := (bind m (fun x => k))
  (at level 61, m at next level, right associativity).
Notation "m ;;; k" := (bind m (fun _ => k))
  (at level 61, right associativity).

Definition emit (e : event) : M unit :=
  fun s => (mkState (files s) (settings s) (trace s ++ [e])%list, Ok tt).

Definition callback (v : val) : M unit := emit (ECallback v).

Definition log_error (msg : string) : M unit := emit (ELog msg).

(** [await fetch(url)]: the request is sent, then the promise settles. *)
Definition fetch (url : string) (out : fetch_result) : M text_result :=
  emit (EFetch url) ;;;
  match out with
  | FetchOk _ body => ret body
  | FetchFail e => throw (VErr e)
  end.

(** [await res.text()] *)
Definition res_text (t : text_result) : M payload :=
  match t with
  | Text p => ret p
  | TextFail e => throw (VErr e)
  end.

Definition syntax_error : exn :=
  mkExn None (Some "SyntaxError: Unexpected token in JSON").

(** [JSON.parse(body)] *)
Definition json_parse (p : payload) : M json :=
  match p with
  | PJson j => ret j
  | PNotJson _ => throw (VErr syntax_error)
  end.

Definition prop (j : json) (k : string) : M val :=
  match get_prop j k with
  | inl v => ret v
  | inr e => throw e
  end.

(* ------------------------------------------------------------------ *)
(** ** Registration server requests *)

Definition dnsconfig_url (endpoint token keyAuthDigest : string) : string :=
  endpoint ++ "/dnsconfig?token=" ++ token ++ "&challenge=" ++ keyAuthDigest.

(** [leChallenge.leDnsResponse]: called by greenlock with the digest of
    one challenge round; it asks the registration server to publish the
    TXT record.  On failure it logs, calls the register callback with the
    error and rejects. *)
Definition leDnsResponse (endpoint : string) (token : val)
    (keyAuthDigest : string) (out : fetch_result) : M unit :=
  try_catch
    (res <- fetch (dnsconfig_url endpoint (val_to_string token) keyAuthDigest) out ;;
     _ <- res_text res ;;
     ret tt)
    (fun e =>
       log_error "Failed to set DNS token on registration server:" ;;;
       callback e ;;;
       throw e).

(** Property read [v.k] on any value: [undefined] throws like [null]. *)
Definition val_prop (v : val) (k : string) : M val :=
  match v with
  | VUndef => throw (VErr type_error)
  | VJson j => prop j k
  | VErr _ | VStr _ => ret VUndef
  end.

(* ------------------------------------------------------------------ *)
(** ** String helpers: [String.prototype.trim] and [substring] *)

Definition is_js_space (c : ascii) : bool :=
  match nat_of_ascii c with
  | 32 | 9 | 10 | 11 | 12 | 13 => true
  | _ => false
  end.

Fixpoint trim_start (s : string) : string :=
  match s with
  | EmptyString => EmptyString
  | String c r => if is_js_space c then trim_start r else s
  end.

Definition string_rev (s : string) : string :=
  string_of_list_ascii (rev (list_ascii_of_string s)).

(** ASCII whitespace only; the Unicode spaces JS also strips are left out. *)
Definition trim (s : string) : string :=
  string_rev (trim_start (string_rev (trim_start s))).

Definition newline : string := String (ascii_of_nat 10) EmptyString.

(** [m.substring(0, m.indexOf('\n'))]: [indexOf] gives -1 when there is no
    newline, and [substring] clamps it to 0. *)
Definition first_line (m : string) : string :=
  match String.index 0 newline m with
  | Some i => substring 0 i m
  | None => ""
  end.

(** [err.detail || err.message.substring(0, err.message.indexOf('\n'))];
    reading [message] of something that has none throws a TypeError. *)
Definition registration_error_arg (err : val) : val + val :=
  let from_message (m : option string) :=
    match m with
    | Some m => inl (VStr (first_line m))
    | None => inr (VErr type_error)
    end in
  match err with
  | VErr e =>
      match detail e with
      | Some d => if String.eqb d "" then from_message (message e) else inl (VStr d)
      | None => from_message (message e)
      end
  | VUndef => inr (VErr type_error)
  | VJson _ | VStr _ => from_message None
  end.

(* ------------------------------------------------------------------ *)
(** ** Certificate store and settings store *)

Definition path_join (dir f : string) : string := dir ++ "/" ++ f.

Definition certificate_path (E : env) : string := path_join (sslDir E) "certificate.pem".
Definition privatekey_path (E : env) : string := path_join (sslDir E) "privatekey.pem".
Definition chain_path (E : env) : string := path_join (sslDir E) "chain.pem".

Definition set_file (s : state) (p : string) (c : string) : state :=
  mkState (fun q => if String.eqb q p then Some c else files s q)
          (settings s) (trace s).

Definition writeFileSync (out : string -> write_outcome) (p c : string) : M unit :=
  fun s =>
    match out p with
    | None => (mkState (files (set_file s p c)) (settings s)
                       (trace s ++ [EWrite p c])%list, Ok tt)
    | Some (e, None) => (s, Throw (VErr e))
    | Some (e, Some partial) => (set_file s p partial, Throw (VErr e))
    end.

(** [writeCertificates(results)]: three sequential writes. *)
Definition writeCertificates (E : env) (results : bundle) : M unit :=
  writeFileSync (write_fail E) (certificate_path E) (cert results) ;;;
  writeFileSync (write_fail E) (privatekey_path E) (privkey results) ;;;
  writeFileSync (write_fail E) (chain_path E) (chain results).

(** Modelled from the spec: [Settings.set] (models/settings, not among the
    sources) saves the single record under its key, last write wins; the
    outcome of the database write comes from the environment. *)
Definition settings_set (E : env) (key : string) (v : json) : M unit :=
  fun s =>
    match settings_set_fail E with
    | Some e => (s, Throw (VErr e))
    | None => (mkState (files s)
                       (fun k => if String.eqb k key then Some v else settings s k)
                       (trace s ++ [ESettingsSet key v])%list, Ok tt)
    end.

Definition not_found : exn := mkExn None (Some "Setting not found").

(** Modelled from the spec: [Settings.get] (models/settings, not among
    the sources), "load() -> token | NotFound": the stored record, a
    NotFound failure when there is none, or a database failure from the
    environment. *)
Definition settings_get (E : env) (key : string) : M val :=
  fun s =>
    match settings_get_fail E with
    | Some e => (s, Throw (VErr e))
    | None => match settings s key with
                 | Some j => (s, Ok (VJson j))
                 | None => (s, Throw (VErr not_found))
                 end
    end.

(* ------------------------------------------------------------------ *)
(** ** register *)

(** [le.register({domains: [domain], challengeType, ...})] of greenlock:
    the call is made, greenlock runs its challenge rounds through the
    configured challenge ([challenge]); a rejection there rejects
    [le.register]; otherwise it settles with [acme_result]. *)
Definition le_register (E : env) (domain challengeType : string)
    (challenge : M unit) : M bundle :=
  emit (EAcme domain challengeType (certemail E)) ;;;
  challenge ;;;
  match acme_result E with
  | inl results => ret results
  | inr e => throw (VErr e)
  end.

(** The dns-01 rounds: [leDnsResponse] for each digest greenlock supplies. *)
Fixpoint dns_challenge_rounds (endpoint : string) (token : val)
    (rounds : list (string * fetch_result)) : M unit :=
  match rounds with
  | [] => ret tt
  | (keyAuthDigest, out) :: r =>
      leDnsResponse endpoint token keyAuthDigest out ;;;
      dns_challenge_rounds endpoint token r
  end.

(** [if (reclamationToken)] for a string argument, [null] or [undefined]. *)
Definition reclaimed (reclamationToken : option string) : bool :=
  match reclamationToken with
  | Some r => negb (String.eqb r "")
  | None => false
  end.

Definition subscribe_url (endpoint subdomain email : string)
    (reclamationToken : option string) : string :=
  endpoint ++ "/subscribe?name=" ++ subdomain ++ "&email=" ++ email ++
  match reclamationToken with
  | Some r => if reclaimed reclamationToken
              then "&reclamationToken=" ++ trim r else ""
  | None => ""
  end.

Definition setemail_url (endpoint token email : string) (optout : bool) : string :=
  endpoint ++ "/setemail?token=" ++ token ++ "&email=" ++ email ++
  "&optout=" ++ (if optout then "true" else "false").

(** First [try] block of register: subscribe and store the token.
    [None] means the function returned; [Some token] carries [token]. *)
Definition subscribe_step (E : env) (email : string)
    (reclamationToken : option string) (subdomain : string) : M (option val) :=
  try_catch
    (res <- fetch (subscribe_url (registration_endpoint E) subdomain email
                                 reclamationToken) (subscribe_out E) ;;
     body <- res_text res ;;
     jsonToken <- json_parse body ;;
     error <- prop jsonToken "error" ;;
     if truthy error then
       callback error ;;; ret None
     else
       token <- prop jsonToken "token" ;;
       settings_set E "tunneltoken" jsonToken ;;;
       ret (Some token))
    (fun e => log_error "Failed to subscribe:" ;;; callback e ;;; ret None).

(** Second [try] block of register: issue, write, associate the email.
    [true] means control reaches the final [callback()]; [false] that the
    inner [return] was taken. *)
Definition issue_step (E : env) (email : string)
    (reclamationToken : option string) (fulldomain : string) (optout : bool)
    (token : val) : M bool :=
  try_catch
    (results <- le_register E fulldomain "dns-01"
                  (dns_challenge_rounds (registration_endpoint E) token (acme_rounds E)) ;;
     writeCertificates E results ;;;
     if negb (reclaimed reclamationToken) then
       try_catch
         (_ <- fetch (setemail_url (registration_endpoint E) (val_to_string token)
                                   email optout) (setemail_out E) ;;
          ret true)
         (fun e => log_error "Failed to set email on server:" ;;;
                   callback e ;;; ret false)
     else ret true)
    (fun err =>
       log_error "Registration failed:" ;;;
       match registration_error_arg err with
       | inl v => callback v
       | inr t => throw t
       end ;;;
       ret true).

Definition register (E : env) (email : string) (reclamationToken : option string)
    (subdomain fulldomain : string) (optout : bool) : M unit :=
  t <- subscribe_step E email reclamationToken subdomain ;;
  match t with
  | None => ret tt
  | Some token =>
      continue <- issue_step E email reclamationToken fulldomain optout token ;;
      if continue then callback VUndef else ret tt
  end.

(* ------------------------------------------------------------------ *)
(** ** renew *)

Definition renew (E : env) : M unit :=
  loaded <- try_catch (t <- settings_get E "tunneltoken" ;; ret (Some t))
                      (fun _ => log_error "Tunnel token not set!" ;;; ret None) ;;
  match loaded with
  | None => ret tt
  | Some tunnelToken =>
      name <- val_prop tunnelToken "name" ;;
      let domain := val_to_string name ++ "." ++ ssl_domain E in
      try_catch
        (results <- le_register E domain "http-01" (ret tt) ;;
         writeCertificates E results)
        (fun _ => log_error "Renewal failed:")
  end.

(* ------------------------------------------------------------------ *)
(** ** Observations on runs *)

Definition add_trace (s : state) (l : list event) : state :=
  mkState (files s) (settings s) (trace s ++ l)%list.

(** The arguments of every callback call, in order. *)
Definition callbacks (tr : list event) : list val :=
  flat_map (fun ev => match ev with ECallback v => [v] | _ => [] end) tr.

(** Requests sent to the setemail endpoint. *)
Definition is_setemail_request (endpoint : string) (ev : event) : bool :=
  match ev with
  | EFetch url => String.prefix (endpoint ++ "/setemail?") url
  | _ => false
  end.

Definition setemail_requests (endpoint : string) (tr : list event) : list event :=
  filter (is_setemail_request endpoint) tr.

(** The three artifacts on disk hold bundle [b]. *)
Definition bundle_on_disk (E : env) (s : state) (b : bundle) : Prop :=
  files s (certificate_path E) = Some (cert b) /\
  files s (privatekey_path E) = Some (privkey b) /\
  files s (chain_path E) = Some (chain b).

(** A dnsconfig request that reached the server: the response, whatever
    its status, and its body were received. *)
Definition round_answered (round : string * fetch_result) : bool :=
  match snd round with
  | FetchOk _ (Text _) => true
  | _ => false
  end.

(* ------------------------------------------------------------------ *)
(** ** Query strings as the registration server reads them *)

Fixpoint has_char (c : ascii) (s : string) : bool :=
  match s with
  | EmptyString => false
  | String d r => Ascii.eqb c d || has_char c r
  end.

Fixpoint all_chars (p : ascii -> bool) (s : string) : bool :=
  match s with
  | EmptyString => true
  | String d r => p d && all_chars p r
  end.

(** Text before the first [c], and what follows it if there is one. *)
Fixpoint split_first (c : ascii) (s : string) : string * option string :=
  match s with
  | EmptyString => (EmptyString, None)
  | String d r =>
      if Ascii.eqb c d then (EmptyString, Some r)
      else let (x, y) := split_first c r in (String d x, y)
  end.

(** [s.split(c)] *)
Fixpoint split_on (c : ascii) (s : string) : list string :=
  match s with
  | EmptyString => [EmptyString]
  | String d r =>
      let parts := split_on c r in
      if Ascii.eqb c d then EmptyString :: parts
      else match parts with
           | p :: ps => String d p :: ps
           | [] => [String d EmptyString]
           end
  end.

Definition hex_val (c : ascii) : option nat :=
  let n := nat_of_ascii c in
  if (Nat.leb 48 n) && (Nat.leb n 57) then Some (n - 48)
  else if (Nat.leb 65 n) && (Nat.leb n 70) then Some (n - 55)
  else if (Nat.leb 97 n) && (Nat.leb n 102) then Some (n - 87)
  else None.

(** application/x-www-form-urlencoded decoding of a value. *)
Fixpoint form_decode (s : string) : string :=
  match s with
  | EmptyString => EmptyString
  | String c r =>
      if Ascii.eqb c "+" then String " " (form_decode r)
      else if Ascii.eqb c "%" then
        match r with
        | String h1 (String h2 r') =>
            match hex_val h1, hex_val h2 with
            | Some a, Some b => String (ascii_of_nat (16 * a + b)) (form_decode r')
            | _, _ => String c (form_decode r)
            end
        | _ => String c (form_decode r)
        end
      else String c (form_decode r)
  end.

(** The query of a URL: after the first [?], up to the fragment. *)
Definition request_query (url : string) : string :=
  match snd (split_first "?" url) with
  | Some q => fst (split_first "#" q)
  | None => EmptyString
  end.

Definition query_params (url : string) : list (string * string) :=
  map (fun kv => let (k, v) := split_first "=" kv in
                 (k, match v with Some v => form_decode v | None => EmptyString end))
      (split_on "&" (request_query url)).

(** The value of the first parameter named [k]. *)
Definition query_param (url k : string) : option string :=
  option_map snd (find (fun kv => String.eqb (fst kv) k) (query_params url)).

(** Characters of base64url, the alphabet of ACME key-authorization
    digests (RFC 8555, section 8.4). *)
Definition is_base64url_char (c : ascii) : bool :=
  let n := nat_of_ascii c in
  ((Nat.leb 65 n) && (Nat.leb n 90)) || ((Nat.leb 97 n) && (Nat.leb n 122)) ||
  ((Nat.leb 48 n) && (Nat.leb n 57)) || (Nat.eqb n 45) || (Nat.eqb n 95).

(* ------------------------------------------------------------------ *)
(** ** Rule store: [Database.prototype.getRules] *)

Module Rules.

Record row : Type := mkRow {
  row_id : Z;                 (* INTEGER PRIMARY KEY *)
  row_description : string;   (* JSON text *)
}.

Section GetRules.

(** The rule description type, [JSON.parse] on stored text (rows are
    written with [JSON.stringify]) and [DatabaseMigrate.migrate], which
    returns a migrated description or a falsy value ([None]). *)
Variable Desc : Type.
Variable JSON_parse : string -> Desc.
Variable migrate : Desc -> option Desc.

(** [rules[id] = desc] on a plain object keyed by rule id. *)
Fixpoint obj_set (rules : list (Z * Desc)) (k : Z) (v : Desc) : list (Z * Desc) :=
  match rules with
  | [] => [(k, v)]
  | (k', v') :: r => if Z.eqb k k' then (k, v) :: r else (k', v') :: obj_set r k v
  end.

Fixpoint obj_get (rules : list (Z * Desc)) (k : Z) : option Desc :=
  match rules with
  | [] => None
  | (k', v) :: r => if Z.eqb k k' then Some v else obj_get r k
  end.

(** The [for (const row of rows)] loop: the [rules] object and the
    [updateRule] calls pushed on [updatePromises], in order. *)
Fixpoint rows_loop (rows : list row) (rules : list (Z * Desc))
    (updatePromises : list (Z * Desc)) : list (Z * Desc) * list (Z * Desc) :=
  match rows with
  | [] => (rules, updatePromises)
  | r :: rs =>
      let desc := JSON_parse (row_description r) in
      match migrate desc with
      | Some updatedDesc =>
          rows_loop rs (obj_set rules (row_id r) updatedDesc)
                    (updatePromises ++ [(row_id r, updatedDesc)])%list
      | None => rows_loop rs (obj_set rules (row_id r) desc) updatePromises
      end
  end.

Inductive outcome : Type :=
| Resolved (rules : list (Z * Desc))
| Rejected (err : exn)
| Pending.   (* neither resolved nor rejected *)

(** [getRules()]: [all] is the result of [db.all(SELECT ...)];
    [updateRule_ok id desc] whether the promise of [updateRule(id, desc)]
    fulfils.  Returns the [updateRule] calls made and the settlement of the
    returned promise.  [Promise.all(updatePromises).then(() =>
    resolve(rules))] resolves only once every update has fulfilled; a
    rejected update has no handler, so the promise stays pending. *)
Definition getRules (all : list row + exn) (updateRule_ok : Z -> Desc -> bool)
    : list (Z * Desc) * outcome :=
  match all with
  | inr err => ([], Rejected err)
  | inl rows =>
      let (rules, updatePromises) := rows_loop rows [] [] in
      (updatePromises,
       if forallb (fun u => updateRule_ok (fst u) (snd u)) updatePromises
       then Resolved rules else Pending)
  end.

(** The description a row should map to: migrated, or as stored. *)
Definition migrated (r : row) : Desc :=
  let desc := JSON_parse (row_description r) in
  match migrate desc with
  | Some d => d
  | None => desc
  end.

Definition changed_rows (rows : list row) : list (Z * Desc) :=
  flat_map (fun r => match migrate (JSON_parse (row_description r)) with
                     | Some d => [(row_id r, d)]
                     | None => []
                     end) rows.

End GetRules.

End Rules.

(* ------------------------------------------------------------------ *)
(** ** Concrete inputs *)

Definition ex_bundle : bundle := mkBundle "NEW-CERT" "NEW-KEY" "NEW-CHAIN".
Definition old_bundle : bundle := mkBundle "OLD-CERT" "OLD-KEY" "OLD-CHAIN".

Definition ex_state : state := mkState (fun _ => None) (fun _ => None) [].

(** The spec's end-to-end scenario: the registrar answers [{token}]. *)
Definition ex_env : env :=
  mkEnv "https://api.example.org" "certs@example.org" "example.com" "/ssl"
        (FetchOk 200 (Text (PJson (JObj [("token", JStr "abc123")]))))
        None None
        [("p5mY0yjdqPmvjD1Xv8GWjlBdnX-fr1Ylj_3pxOkbNQQ",
          FetchOk 200 (Text (PNotJson "")))]
        (inl ex_bundle) (fun _ => None)
        (FetchOk 200 (Text (PNotJson ""))).

Definition with_subscribe (E : env) (out : fetch_result) : env :=
  mkEnv (registration_endpoint E) (certemail E) (ssl_domain E) (sslDir E)
        out (settings_set_fail E) (settings_get_fail E) (acme_rounds E)
        (acme_result E) (write_fail E) (setemail_out E).

Definition with_acme (E : env) (r : bundle + exn) : env :=
  mkEnv (registration_endpoint E) (certemail E) (ssl_domain E) (sslDir E)
        (subscribe_out E) (settings_set_fail E) (settings_get_fail E)
        (acme_rounds E) r (write_fail E) (setemail_out E).

Definition with_write_fail (E : env) (w : string -> write_outcome) : env :=
  mkEnv (registration_endpoint E) (certemail E) (ssl_domain E) (sslDir E)
        (subscribe_out E) (settings_set_fail E) (settings_get_fail E)
        (acme_rounds E) (acme_result E) w (setemail_out E).

Definition with_setemail (E : env) (out : fetch_result) : env :=
  mkEnv (registration_endpoint E) (certemail E) (ssl_domain E) (sslDir E)
        (subscribe_out E) (settings_set_fail E) (settings_get_fail E)
        (acme_rounds E) (acme_result E) (write_fail E) out.

Definition eacces : exn := mkExn None (Some "EACCES: permission denied").

(** Disk holding a previous bundle. *)
Definition old_disk_state (E : env) : state :=
  mkState (fun p => if String.eqb p (certificate_path E) then Some (cert old_bundle)
                    else if String.eqb p (privatekey_path E) then Some (privkey old_bundle)
                    else if String.eqb p (chain_path E) then Some (chain old_bundle)
                    else None)
          (fun _ => None) [].

(** The registrar rejects the name: [{error: "name taken"}]. *)
Definition name_taken_env : env :=
  with_subscribe ex_env
    (FetchOk 200 (Text (PJson (JObj [("error", JStr "name taken")])))).

(** The registrar answers with an empty error field: [{error: ""}]. *)
Definition empty_error_env : env :=
  with_subscribe ex_env (FetchOk 200 (Text (PJson (JObj [("error", JStr "")])))).

(** Writing privatekey.pem fails before the file is opened. *)
Definition key_write_fails_env : env :=
  with_write_fail ex_env
    (fun p => if String.eqb p (privatekey_path ex_env) then Some (eacces, None) else None).

(** A computation that only appends events satisfying [P] to the trace. *)
Definition appends_only (P : event -> bool) {A} (m : M A) : Prop :=
  forall s, exists l, trace (fst (m s)) = (trace s ++ l)%list /\ forallb P l = true.

Definition not_setemail (endpoint : string) (ev : event) : bool :=
  negb (is_setemail_request endpoint ev).

(** Greenlock rejects the order: the CA's rate limit. *)
Definition rate_limited : exn :=
  mkExn (Some "Error creating new order :: too many certificates already issued")
        (Some "too many certificates already issued").

Definition acme_fails_env : env := with_acme ex_env (inr rate_limited).

Definition econnreset : exn :=
  mkExn None (Some "request to https://api.example.org/dnsconfig failed, reason: socket hang up").

(** The dnsconfig request of the only challenge round fails; greenlock
    rejects [le.register] with the same error. *)
Definition dns_fails_env : env :=
  mkEnv (registration_endpoint ex_env) (certemail ex_env) (ssl_domain ex_env)
        (sslDir ex_env) (subscribe_out ex_env) None None
        [("p5mY0yjdqPmvjD1Xv8GWjlBdnX-fr1Ylj_3pxOkbNQQ", FetchFail econnreset)]
        (inr econnreset) (fun _ => None) (setemail_out ex_env).

(** Property [k] of a decoded object. *)
Definition field (fields : list (string * json)) (k : string) : val :=
  match assoc_last k fields with
  | Some v => VJson v
  | None => VUndef
  end.

(** The dnsconfig requests of the challenge rounds. *)
Definition dns_requests (endpoint : string) (token : val)
    (rounds : list (string * fetch_result)) : list event :=
  map (fun r => EFetch (dnsconfig_url endpoint (val_to_string token) (fst r))) rounds.

(** The setemail request fails on the network. *)
Definition setemail_fails_env : env := with_setemail ex_env (FetchFail econnreset).

(** A computation that leaves the observation [obs] of the state as it was. *)
Definition keeps {X A} (obs : state -> X) (m : M A) : Prop :=
  forall s, obs (fst (m s)) = obs s.

(** Observations that do not look at the trace. *)
Definition trace_blind {X} (obs : state -> X) : Prop :=
  forall s l, obs (add_trace s l) = obs s.

(** Events that are not a request through [fetch]. *)
Definition not_fetch (ev : event) : bool :=
  match ev with
  | EFetch _ => false
  | _ => true
  end.

(** The settings store holding the record [r] under [tunneltoken]. *)
Definition stored_state (r : json) : state :=
  mkState (fun _ => None)
          (fun k => if String.eqb k "tunneltoken" then Some r else None) [].

(** The record register saves when the registrar answers [{name, token}]. *)
Definition ex_record : json := JObj [("name", JStr "mygateway"); ("token", JStr "abc123")].

Definition with_settings_set_fail (E : env) (e : option exn) : env :=
  mkEnv (registration_endpoint E) (certemail E) (ssl_domain E) (sslDir E)
        (subscribe_out E) e (settings_get_fail E) (acme_rounds E)
        (acme_result E) (write_fail E) (setemail_out E).

(** Saving the subscription answer fails. *)
Definition settings_fails_env : env := with_settings_set_fail ex_env (Some eacces).

(** An ACME failure with a one-line message and no [detail]. *)
Definition acme_timeout : exn := mkExn None (Some "Timeout waiting for challenge").

Definition acme_timeout_env : env := with_acme ex_env (inr acme_timeout).

(** The registrar answers without a token: [{name}]. *)
Definition no_token_env : env :=
  with_subscribe ex_env (FetchOk 200 (Text (PJson (JObj [("name", JStr "mygateway")])))).

(** The subscription request fails on the network. *)
Definition subscribe_fails_env : env := with_subscribe ex_env (FetchFail econnreset).

(* ================================================================== *)
(** * Theorems *)

Lemma string_app_eqb_cancel (a b c : string) :
  String.eqb (a ++ b) (a ++ c) = String.eqb b c.
Proof.
  induction a as [|x a IH]; simpl; [reflexivity|].
  rewrite Ascii.eqb_refl. exact IH.
Qed.

Lemma prefix_app_cancel (a b c : string) :
  String.prefix (a ++ b) (a ++ c) = String.prefix b c.
Proof.
  induction a as [|x a IH]; simpl; [reflexivity|].
  destruct (ascii_dec x x) as [_|n]; [exact IH|contradiction n; reflexivity].
Qed.

Lemma add_trace_add_trace (s : state) (l1 l2 : list event) :
  add_trace (add_trace s l1) l2 = add_trace s (l1 ++ l2)%list.
Proof. unfold add_trace; simpl. rewrite app_assoc. reflexivity. Qed.

(** ** C10 *)

(** C10: the dns-01 publisher [leDnsResponse] resolves for every HTTP
    response it receives, whatever its status code, sending only the
    dnsconfig request; it rejects only when the request or the reading of
    its body fails on the network. *)
Theorem leDnsResponse_resolves_on_any_response :
  forall endpoint token keyAuthDigest s,
  (forall status body,
     leDnsResponse endpoint token keyAuthDigest (FetchOk status (Text body)) s =
     (add_trace s [EFetch (dnsconfig_url endpoint (val_to_string token) keyAuthDigest)],
      Ok tt)) /\
  (forall out v,
     snd (leDnsResponse endpoint token keyAuthDigest out s) = Throw v ->
     exists e, v = VErr e /\
       (out = FetchFail e \/ exists status, out = FetchOk status (TextFail e))).
Proof.
  intros endpoint token keyAuthDigest s. split.
  - intros status body. reflexivity.
  - intros [status [p|e]|e] v H; simpl in H; inversion H; subst; eauto.
Qed.

(** ** C4 *)

(** C4: when loading the persisted tunnel token fails, [renew] only logs
    "Tunnel token not set!": no request, no ACME call, files and settings
    untouched. *)
Theorem renew_without_token_only_logs (E : env) (s : state) (e : val)
    (Hload : snd (settings_get E "tunneltoken" s) = Throw e) :
  renew E s = (add_trace s [ELog "Tunnel token not set!"], Ok tt).
Proof.
  unfold settings_get in Hload.
  unfold renew, try_catch, bind, ret, log_error, emit, settings_get, add_trace.
  destruct (settings_get_fail E) as [err|].
  - reflexivity.
  - destruct (settings s "tunneltoken"); [discriminate Hload | reflexivity].
Qed.

Lemma renew_without_token_only_logs_witness :
  snd (settings_get ex_env "tunneltoken" ex_state) = Throw (VErr not_found) /\
  renew ex_env ex_state = (add_trace ex_state [ELog "Tunnel token not set!"], Ok tt).
Proof.
  split; [reflexivity|].
  apply (renew_without_token_only_logs ex_env ex_state (VErr not_found)).
  reflexivity.
Defined.

(** ** C3 *)

(** C3 (counterexample): a subscribe answer whose error field is present
    but falsy ([""]) does not stop register: the decoded answer is
    persisted as the tunnel token, the ACME issuance runs and the
    certificate is written. *)
Lemma register_empty_error_field_continues :
  let s' := fst (register empty_error_env "user@example.com" None "mygateway"
                          "mygateway.example.com" false ex_state) in
  settings s' "tunneltoken" = Some (JObj [("error", JStr "")]) /\
  In (EAcme "mygateway.example.com" "dns-01" "certs@example.org") (trace s') /\
  files s' (certificate_path empty_error_env) = Some (cert ex_bundle).
Proof.
  vm_compute. split; [reflexivity|]. split; [|reflexivity].
  repeat (first [left; reflexivity | right]).
Qed.

(** C3 (amended): when the subscribe answer decodes to an object whose
    error field is truthy, register calls back once with that error value
    and returns: besides the subscribe request nothing happens (no
    dnsconfig request, no ACME call, no settings record, no file). *)
Theorem register_subscription_error_fails_fast (E : env) (email : string)
    (reclamationToken : option string) (subdomain fulldomain : string)
    (optout : bool) (s : state) (status : Z) (fields : list (string * json))
    (error : json)
    (Hsub : subscribe_out E = FetchOk status (Text (PJson (JObj fields))))
    (Herr : assoc_last "error" fields = Some error)
    (Htruthy : json_truthy error = true) :
  register E email reclamationToken subdomain fulldomain optout s =
  (add_trace s [EFetch (subscribe_url (registration_endpoint E) subdomain email
                                      reclamationToken);
                ECallback (VJson error)], Ok tt).
Proof.
  unfold register, subscribe_step, try_catch, bind, fetch, emit, ret,
         res_text, json_parse, prop, get_prop, callback, truthy.
  rewrite Hsub. cbn. rewrite Herr. cbn. rewrite Htruthy.
  unfold add_trace. simpl. rewrite <- app_assoc. reflexivity.
Qed.

Lemma register_subscription_error_fails_fast_witness :
  register name_taken_env "user@example.com" None "mygateway"
           "mygateway.example.com" false ex_state =
  (add_trace ex_state
     [EFetch (subscribe_url "https://api.example.org" "mygateway"
                            "user@example.com" None);
      ECallback (VJson (JStr "name taken"))], Ok tt).
Proof.
  apply (register_subscription_error_fails_fast name_taken_env _ _ _ _ _ _ 200
           [("error", JStr "name taken")] (JStr "name taken"));
    reflexivity.
Defined.

(** ** C2 *)

Lemma cert_key_path_neq (E : env) :
  String.eqb (certificate_path E) (privatekey_path E) = false.
Proof. unfold certificate_path, privatekey_path, path_join.
       rewrite string_app_eqb_cancel. reflexivity. Qed.

Lemma key_cert_path_neq (E : env) :
  String.eqb (privatekey_path E) (certificate_path E) = false.
Proof. unfold certificate_path, privatekey_path, path_join.
       rewrite string_app_eqb_cancel. reflexivity. Qed.

Lemma cert_chain_path_neq (E : env) :
  String.eqb (certificate_path E) (chain_path E) = false.
Proof. unfold certificate_path, chain_path, path_join.
       rewrite string_app_eqb_cancel. reflexivity. Qed.

Lemma chain_cert_path_neq (E : env) :
  String.eqb (chain_path E) (certificate_path E) = false.
Proof. unfold certificate_path, chain_path, path_join.
       rewrite string_app_eqb_cancel. reflexivity. Qed.

Lemma key_chain_path_neq (E : env) :
  String.eqb (privatekey_path E) (chain_path E) = false.
Proof. unfold privatekey_path, chain_path, path_join.
       rewrite string_app_eqb_cancel. reflexivity. Qed.

Lemma chain_key_path_neq (E : env) :
  String.eqb (chain_path E) (privatekey_path E) = false.
Proof. unfold privatekey_path, chain_path, path_join.
       rewrite string_app_eqb_cancel. reflexivity. Qed.

Create Rewrite HintDb cert_paths.
#[export] Hint Rewrite cert_key_path_neq key_cert_path_neq cert_chain_path_neq
  chain_cert_path_neq key_chain_path_neq chain_key_path_neq String.eqb_refl
  : cert_paths.

Lemma files_set_file (s : state) (p q c : string) :
  files (set_file s p c) q = if String.eqb q p then Some c else files s q.
Proof. reflexivity. Qed.

(** C2 (counterexample): if writing privatekey.pem fails, certificate.pem
    already holds the new certificate while privatekey.pem keeps the old
    key: neither all three new nor all three unchanged. *)
Lemma writeCertificates_mixed_bundle :
  let s0 := old_disk_state key_write_fails_env in
  let s' := fst (writeCertificates key_write_fails_env ex_bundle s0) in
  files s' (certificate_path key_write_fails_env) = Some (cert ex_bundle) /\
  files s' (privatekey_path key_write_fails_env) = Some (privkey old_bundle) /\
  ~ (bundle_on_disk key_write_fails_env s' ex_bundle \/
     (forall p, files s' p = files s0 p)).
Proof.
  split; [vm_compute; reflexivity|]. split; [vm_compute; reflexivity|].
  intros [[_ [H _]] | H].
  - vm_compute in H. discriminate H.
  - specialize (H (certificate_path key_write_fails_env)).
    vm_compute in H. discriminate H.
Qed.

(** What a failed write leaves in its file. *)
Definition left_in (s : state) (p : string) (left : option string) : option string :=
  match left with
  | Some partial => Some partial
  | None => files s p
  end.

(** C2 (amended): [writeCertificates] writes certificate.pem,
    privatekey.pem and chain.pem one after the other.  If all three
    writes succeed the three files hold the new bundle (and no other file
    changes); if a write fails, the files written before it hold the new
    bundle, the files after it keep their previous content, the failing
    file is left as the failed write left it, and the error is thrown. *)
Theorem writeCertificates_sequential (E : env) (b : bundle) (s : state) :
  let w := write_fail E in
  let r := writeCertificates E b s in
  (w (certificate_path E) = None -> w (privatekey_path E) = None ->
   w (chain_path E) = None ->
   snd r = Ok tt /\ bundle_on_disk E (fst r) b /\
   (forall p, p <> certificate_path E -> p <> privatekey_path E ->
              p <> chain_path E -> files (fst r) p = files s p)) /\
  (forall e left, w (certificate_path E) = Some (e, left) ->
   snd r = Throw (VErr e) /\
   files (fst r) (certificate_path E) = left_in s (certificate_path E) left /\
   files (fst r) (privatekey_path E) = files s (privatekey_path E) /\
   files (fst r) (chain_path E) = files s (chain_path E)) /\
  (forall e left, w (certificate_path E) = None ->
   w (privatekey_path E) = Some (e, left) ->
   snd r = Throw (VErr e) /\
   files (fst r) (certificate_path E) = Some (cert b) /\
   files (fst r) (privatekey_path E) = left_in s (privatekey_path E) left /\
   files (fst r) (chain_path E) = files s (chain_path E)) /\
  (forall e left, w (certificate_path E) = None ->
   w (privatekey_path E) = None -> w (chain_path E) = Some (e, left) ->
   snd r = Throw (VErr e) /\
   files (fst r) (certificate_path E) = Some (cert b) /\
   files (fst r) (privatekey_path E) = Some (privkey b) /\
   files (fst r) (chain_path E) = left_in s (chain_path E) left).
Proof.
  cbv zeta. unfold writeCertificates, bind, writeFileSync.
  repeat split; intros;
    repeat match goal with H : write_fail E _ = _ |- _ => rewrite H; clear H end;
    try (destruct left as [partial|]);
    cbn [fst snd files set_file];
    autorewrite with cert_paths;
    try reflexivity.
  repeat match goal with H : ?p <> ?q |- _ => apply String.eqb_neq in H; rewrite H; clear H end.
  reflexivity.
Qed.

(** ** C5 *)

Section AppendsOnly.

Variable P : event -> bool.

Lemma appends_only_ret {A} (a : A) : appends_only P (ret a).
Proof. intro s. exists []. rewrite app_nil_r. auto. Qed.

Lemma appends_only_throw {A} (v : val) : appends_only P (@throw A v).
Proof. intro s. exists []. rewrite app_nil_r. auto. Qed.

Lemma appends_only_emit (e : event) : P e = true -> appends_only P (emit e).
Proof. intros H s. exists [e]. simpl. rewrite H. auto. Qed.

Lemma appends_only_bind {A B} (m : M A) (k : A -> M B) :
  appends_only P m -> (forall a, appends_only P (k a)) -> appends_only P (bind m k).
Proof.
  intros Hm Hk s. unfold bind.
  destruct (Hm s) as [l1 [H1 F1]].
  destruct (m s) as [s1 [a|v]]; simpl in *.
  - destruct (Hk a s1) as [l2 [H2 F2]]. exists (l1 ++ l2)%list.
    rewrite H2, H1, app_assoc, forallb_app, F1, F2. auto.
  - exists l1. auto.
Qed.

Lemma appends_only_try_catch {A} (m : M A) (h : val -> M A) :
  appends_only P m -> (forall v, appends_only P (h v)) ->
  appends_only P (try_catch m h).
Proof.
  intros Hm Hh s. unfold try_catch.
  destruct (Hm s) as [l1 [H1 F1]].
  destruct (m s) as [s1 [a|v]]; simpl in *.
  - exists l1. auto.
  - destruct (Hh v s1) as [l2 [H2 F2]]. exists (l1 ++ l2)%list.
    rewrite H2, H1, app_assoc, forallb_app, F1, F2. auto.
Qed.

Lemma appends_only_fetch (url : string) (out : fetch_result) :
  P (EFetch url) = true -> appends_only P (fetch url out).
Proof.
  intro H. unfold fetch. apply appends_only_bind; [apply appends_only_emit; exact H|].
  intros _. destruct out; [apply appends_only_ret | apply appends_only_throw].
Qed.

Lemma appends_only_res_text (t : text_result) : appends_only P (res_text t).
Proof. destruct t; [apply appends_only_ret | apply appends_only_throw]. Qed.

Lemma appends_only_json_parse (p : payload) : appends_only P (json_parse p).
Proof. destruct p; [apply appends_only_ret | apply appends_only_throw]. Qed.

Lemma appends_only_prop (j : json) (k : string) : appends_only P (prop j k).
Proof.
  unfold prop. destruct (get_prop j k); [apply appends_only_ret | apply appends_only_throw].
Qed.

Lemma appends_only_writeFileSync out p c :
  P (EWrite p c) = true -> appends_only P (writeFileSync out p c).
Proof.
  intros H s. unfold writeFileSync.
  destruct (out p) as [[e [partial|]]|]; simpl.
  - exists []. rewrite app_nil_r. auto.
  - exists []. rewrite app_nil_r. auto.
  - exists [EWrite p c]. simpl. rewrite H. auto.
Qed.

Lemma appends_only_settings_set E key v :
  P (ESettingsSet key v) = true -> appends_only P (settings_set E key v).
Proof.
  intros H s. unfold settings_set.
  destruct (settings_set_fail E); simpl.
  - exists []. rewrite app_nil_r. auto.
  - exists [ESettingsSet key v]. simpl. rewrite H. auto.
Qed.

End AppendsOnly.

Ltac appends_only_step :=
  match goal with
  | |- appends_only _ (bind _ _) => apply appends_only_bind; [|intro]
  | |- appends_only _ (try_catch _ _) => apply appends_only_try_catch; [|intro]
  | |- appends_only _ (ret _) => apply appends_only_ret
  | |- appends_only _ (throw _) => apply appends_only_throw
  | |- appends_only _ (emit _) => apply appends_only_emit
  | |- appends_only _ (callback _) => apply appends_only_emit
  | |- appends_only _ (log_error _) => apply appends_only_emit
  | |- appends_only _ (fetch _ _) => apply appends_only_fetch
  | |- appends_only _ (res_text _) => apply appends_only_res_text
  | |- appends_only _ (json_parse _) => apply appends_only_json_parse
  | |- appends_only _ (prop _ _) => apply appends_only_prop
  | |- appends_only _ (writeFileSync _ _ _) => apply appends_only_writeFileSync
  | |- appends_only _ (settings_set _ _ _) => apply appends_only_settings_set
  | |- appends_only _ (if ?b then _ else _) => destruct b
  | |- appends_only _ (match ?x with _ => _ end) => destruct x
  end.

Lemma dns_rounds_not_setemail (endpoint : string) (token : val) rounds :
  appends_only (not_setemail endpoint) (dns_challenge_rounds endpoint token rounds).
Proof.
  induction rounds as [|[d out] r IH]; simpl.
  - apply appends_only_ret.
  - apply appends_only_bind; [|intros _; exact IH].
    unfold leDnsResponse. repeat appends_only_step; try reflexivity.
    unfold not_setemail, is_setemail_request, dnsconfig_url.
    rewrite prefix_app_cancel. reflexivity.
Qed.

Lemma register_reclaimed_not_setemail (E : env) (email : string) (r : string)
    (subdomain fulldomain : string) (optout : bool) :
  r <> "" ->
  appends_only (not_setemail (registration_endpoint E))
               (register E email (Some r) subdomain fulldomain optout).
Proof.
  intro Hr.
  assert (Hrec : reclaimed (Some r) = true).
  { simpl. apply String.eqb_neq in Hr. rewrite Hr. reflexivity. }
  unfold register, subscribe_step, issue_step, le_register, writeCertificates.
  rewrite Hrec. simpl negb. cbv iota.
  repeat first [ apply dns_rounds_not_setemail | appends_only_step ];
    try reflexivity.
  unfold not_setemail, is_setemail_request, subscribe_url.
  rewrite prefix_app_cancel. reflexivity.
Qed.

(** C5: with a non-empty reclamation token, register sends no request to
    the setemail endpoint, whatever the other steps do. *)
Theorem register_reclaimed_never_sets_email (E : env) (email : string)
    (r : string) (subdomain fulldomain : string) (optout : bool) (s : state)
    (Hr : r <> "") :
  setemail_requests (registration_endpoint E)
    (trace (fst (register E email (Some r) subdomain fulldomain optout s))) =
  setemail_requests (registration_endpoint E) (trace s).
Proof.
  destruct (register_reclaimed_not_setemail E email r subdomain fulldomain optout Hr s)
    as [l [Ht Hl]].
  rewrite Ht. unfold setemail_requests. rewrite filter_app.
  replace (filter (is_setemail_request (registration_endpoint E)) l) with (@nil event).
  - apply app_nil_r.
  - clear Ht. induction l as [|ev l IH]; simpl in *; [reflexivity|].
    apply andb_true_iff in Hl as [H1 H2]. unfold not_setemail in H1.
    destruct (is_setemail_request (registration_endpoint E) ev); [discriminate|].
    exact (IH H2).
Qed.

Lemma register_reclaimed_never_sets_email_witness :
  "tok-42" <> "" /\
  setemail_requests "https://api.example.org"
    (trace (fst (register ex_env "user@example.com" (Some "tok-42") "mygateway"
                          "mygateway.example.com" false ex_state))) = [].
Proof.
  split; [discriminate|].
  apply (register_reclaimed_never_sets_email ex_env "user@example.com" "tok-42"
           "mygateway" "mygateway.example.com" false ex_state).
  discriminate.
Defined.

(** ** C1 *)

(** C1 (failing inputs): when the ACME issuance is rejected, register
    calls the callback with the error and then once more with nothing;
    when the dnsconfig request of a challenge round fails, the callback is
    called three times (from [leDnsResponse], from the catch block, and
    the final [callback()]). *)
Theorem register_issuance_failure_calls_back_twice :
  callbacks (trace (fst (register acme_fails_env "user@example.com" None
                                  "mygateway" "mygateway.example.com" false ex_state))) =
  [VStr "Error creating new order :: too many certificates already issued"; VUndef] /\
  callbacks (trace (fst (register dns_fails_env "user@example.com" None
                                  "mygateway" "mygateway.example.com" false ex_state))) =
  [VErr econnreset; VStr ""; VUndef].
Proof. split; vm_compute; reflexivity. Qed.

(** ** Runs of register that reach the email association *)

Lemma dns_rounds_answered (endpoint : string) (token : val) rounds (s : state) :
  forallb round_answered rounds = true ->
  dns_challenge_rounds endpoint token rounds s =
  (add_trace s (dns_requests endpoint token rounds), Ok tt).
Proof.
  revert s. induction rounds as [|[d out] r IH]; intros s H; simpl.
  - unfold ret, add_trace. rewrite app_nil_r. destruct s; reflexivity.
  - simpl in H. apply andb_true_iff in H as [Hd Hr].
    destruct out as [status [p|e]|e]; simpl in Hd; try discriminate.
    unfold bind at 1. cbn. rewrite (IH _ Hr).
    unfold add_trace. simpl. rewrite <- app_assoc. reflexivity.
Qed.

Lemma get_prop_obj (fields : list (string * json)) (k : string) :
  get_prop (JObj fields) k = inl (field fields k).
Proof. unfold get_prop, field. destruct (assoc_last k fields); reflexivity. Qed.

Lemma subscribe_step_stores_answer (E : env) (email : string)
    (reclamationToken : option string) (subdomain : string) (s : state)
    (status : Z) (fields : list (string * json))
    (Hsub : subscribe_out E = FetchOk status (Text (PJson (JObj fields))))
    (Herr : truthy (field fields "error") = false)
    (Hset : settings_set_fail E = None) :
  subscribe_step E email reclamationToken subdomain s =
  (mkState (files s)
           (fun k => if String.eqb k "tunneltoken" then Some (JObj fields) else settings s k)
           (trace s ++ [EFetch (subscribe_url (registration_endpoint E) subdomain email
                                              reclamationToken);
                        ESettingsSet "tunneltoken" (JObj fields)])%list,
   Ok (Some (field fields "token"))).
Proof.
  unfold subscribe_step, try_catch, bind, fetch, emit, ret, res_text, json_parse,
         prop, settings_set.
  rewrite Hsub. cbn -[get_prop truthy field].
  rewrite get_prop_obj. cbn -[get_prop truthy field]. rewrite Herr.
  cbn -[get_prop field]. rewrite get_prop_obj. cbn -[field]. rewrite Hset.
  cbn -[field]. rewrite <- app_assoc. reflexivity.
Qed.

Lemma le_register_answered (E : env) (domain : string) (token : val) (b : bundle)
    (s : state)
    (Hrounds : forallb round_answered (acme_rounds E) = true)
    (Hacme : acme_result E = inl b) :
  le_register E domain "dns-01"
    (dns_challenge_rounds (registration_endpoint E) token (acme_rounds E)) s =
  (add_trace s (EAcme domain "dns-01" (certemail E)
                :: dns_requests (registration_endpoint E) token (acme_rounds E)), Ok b).
Proof.
  unfold le_register, bind at 1. cbn [emit].
  unfold bind. rewrite (dns_rounds_answered _ _ _ _ Hrounds). rewrite Hacme.
  unfold ret, add_trace. simpl. rewrite <- app_assoc. reflexivity.
Qed.

Lemma writeCertificates_ok (E : env) (b : bundle) (s : state)
    (H1 : write_fail E (certificate_path E) = None)
    (H2 : write_fail E (privatekey_path E) = None)
    (H3 : write_fail E (chain_path E) = None) :
  writeCertificates E b s =
  (mkState (files (set_file (set_file (set_file s (certificate_path E) (cert b))
                                      (privatekey_path E) (privkey b))
                            (chain_path E) (chain b)))
           (settings s)
           (trace s ++ [EWrite (certificate_path E) (cert b);
                        EWrite (privatekey_path E) (privkey b);
                        EWrite (chain_path E) (chain b)])%list,
   Ok tt).
Proof.
  unfold writeCertificates, bind, writeFileSync. rewrite H1. cbn. rewrite H2. cbn.
  rewrite H3. cbn. rewrite <- !app_assoc. reflexivity.
Qed.

Lemma issue_step_reaches_setemail (E : env) (email : string)
    (reclamationToken : option string) (fulldomain : string) (optout : bool)
    (token : val) (b : bundle) (s : state)
    (Hrounds : forallb round_answered (acme_rounds E) = true)
    (Hacme : acme_result E = inl b)
    (H1 : write_fail E (certificate_path E) = None)
    (H2 : write_fail E (privatekey_path E) = None)
    (H3 : write_fail E (chain_path E) = None)
    (Hrec : reclaimed reclamationToken = false) :
  issue_step E email reclamationToken fulldomain optout token s =
  (mkState (files (set_file (set_file (set_file s (certificate_path E) (cert b))
                                      (privatekey_path E) (privkey b))
                            (chain_path E) (chain b)))
           (settings s)
           (trace s ++
            EAcme fulldomain "dns-01" (certemail E)
            :: dns_requests (registration_endpoint E) token (acme_rounds E) ++
            [EWrite (certificate_path E) (cert b);
             EWrite (privatekey_path E) (privkey b);
             EWrite (chain_path E) (chain b);
             EFetch (setemail_url (registration_endpoint E) (val_to_string token)
                                  email optout)] ++
            match setemail_out E with
            | FetchOk _ _ => []
            | FetchFail e => [ELog "Failed to set email on server:"; ECallback (VErr e)]
            end)%list,
   Ok (match setemail_out E with FetchOk _ _ => true | FetchFail _ => false end)).
Proof.
  unfold issue_step, try_catch at 1, bind at 1 2.
  rewrite (le_register_answered _ _ _ _ _ Hrounds Hacme).
  cbn -[writeCertificates reclaimed fetch try_catch add_trace].
  rewrite (writeCertificates_ok _ _ _ H1 H2 H3), Hrec.
  unfold add_trace, try_catch, fetch, bind, emit, ret, throw, callback, log_error.
  destruct (setemail_out E); cbn;
    repeat (rewrite <- app_assoc; cbn); try rewrite app_nil_r; reflexivity.
Qed.

Lemma register_reaches_setemail (E : env) (email : string)
    (reclamationToken : option string) (subdomain fulldomain : string)
    (optout : bool) (s : state) (status : Z) (fields : list (string * json))
    (b : bundle)
    (Hsub : subscribe_out E = FetchOk status (Text (PJson (JObj fields))))
    (Herr : truthy (field fields "error") = false)
    (Hset : settings_set_fail E = None)
    (Hrounds : forallb round_answered (acme_rounds E) = true)
    (Hacme : acme_result E = inl b)
    (H1 : write_fail E (certificate_path E) = None)
    (H2 : write_fail E (privatekey_path E) = None)
    (H3 : write_fail E (chain_path E) = None)
    (Hrec : reclaimed reclamationToken = false) :
  register E email reclamationToken subdomain fulldomain optout s =
  (mkState (files (set_file (set_file (set_file s (certificate_path E) (cert b))
                                      (privatekey_path E) (privkey b))
                            (chain_path E) (chain b)))
           (fun k => if String.eqb k "tunneltoken" then Some (JObj fields)
                     else settings s k)
           (trace s ++
            [EFetch (subscribe_url (registration_endpoint E) subdomain email
                                   reclamationToken);
             ESettingsSet "tunneltoken" (JObj fields);
             EAcme fulldomain "dns-01" (certemail E)] ++
            dns_requests (registration_endpoint E) (field fields "token") (acme_rounds E) ++
            [EWrite (certificate_path E) (cert b);
             EWrite (privatekey_path E) (privkey b);
             EWrite (chain_path E) (chain b);
             EFetch (setemail_url (registration_endpoint E)
                                  (val_to_string (field fields "token")) email optout)] ++
            match setemail_out E with
            | FetchOk _ _ => [ECallback VUndef]
            | FetchFail e => [ELog "Failed to set email on server:"; ECallback (VErr e)]
            end)%list,
   Ok tt).
Proof.
  unfold register, bind at 1.
  rewrite (subscribe_step_stores_answer _ _ _ _ _ _ _ Hsub Herr Hset).
  cbv beta iota. unfold bind at 1.
  rewrite (issue_step_reaches_setemail _ _ _ _ _ _ _ _ Hrounds Hacme H1 H2 H3 Hrec).
  unfold callback, emit, ret.
  destruct (setemail_out E); cbn;
    repeat (rewrite <- app_assoc; cbn); reflexivity.
Qed.

Lemma callbacks_app (l1 l2 : list event) :
  callbacks (l1 ++ l2) = (callbacks l1 ++ callbacks l2)%list.
Proof. unfold callbacks. apply flat_map_app. Qed.

Lemma callbacks_dns_requests endpoint token rounds :
  callbacks (dns_requests endpoint token rounds) = [].
Proof. induction rounds; simpl; auto. Qed.

Lemma setemail_requests_app endpoint (l1 l2 : list event) :
  setemail_requests endpoint (l1 ++ l2) =
  (setemail_requests endpoint l1 ++ setemail_requests endpoint l2)%list.
Proof. unfold setemail_requests. apply filter_app. Qed.

Lemma setemail_requests_dns_requests endpoint token rounds :
  setemail_requests endpoint (dns_requests endpoint token rounds) = [].
Proof.
  induction rounds as [|r rs IH]; simpl; [reflexivity|].
  unfold setemail_requests in *. simpl.
  unfold dnsconfig_url. rewrite prefix_app_cancel. exact IH.
Qed.

(** ** C6 *)

(** C6: when register reaches the email association (subscribe answered
    with an object without a truthy error, token saved, every challenge
    round answered, certificate issued and written, no reclamation token)
    and the setemail request fails, register reports that error through
    the callback (once, and nothing else), while the issued bundle stays
    written in the three files. *)
Theorem register_setemail_failure_keeps_certificate (E : env) (email : string)
    (reclamationToken : option string) (subdomain fulldomain : string)
    (optout : bool) (s : state) (status : Z) (fields : list (string * json))
    (b : bundle) (e : exn)
    (Hsub : subscribe_out E = FetchOk status (Text (PJson (JObj fields))))
    (Herr : truthy (field fields "error") = false)
    (Hset : settings_set_fail E = None)
    (Hrounds : forallb round_answered (acme_rounds E) = true)
    (Hacme : acme_result E = inl b)
    (H1 : write_fail E (certificate_path E) = None)
    (H2 : write_fail E (privatekey_path E) = None)
    (H3 : write_fail E (chain_path E) = None)
    (Hrec : reclaimed reclamationToken = false)
    (Hmail : setemail_out E = FetchFail e) :
  let s' := fst (register E email reclamationToken subdomain fulldomain optout s) in
  callbacks (trace s') = (callbacks (trace s) ++ [VErr e])%list /\
  bundle_on_disk E s' b.
Proof.
  cbv zeta.
  rewrite (register_reaches_setemail _ _ _ _ _ _ _ _ _ _ Hsub Herr Hset Hrounds
             Hacme H1 H2 H3 Hrec), Hmail.
  cbn [fst trace files]. split.
  - rewrite !callbacks_app, callbacks_dns_requests. reflexivity.
  - unfold bundle_on_disk, set_file. cbn [files].
    autorewrite with cert_paths. auto.
Qed.

Lemma register_setemail_failure_keeps_certificate_witness :
  let s' := fst (register setemail_fails_env "user@example.com" None "mygateway"
                          "mygateway.example.com" false ex_state) in
  callbacks (trace s') = [VErr econnreset] /\
  bundle_on_disk setemail_fails_env s' ex_bundle.
Proof.
  apply (register_setemail_failure_keeps_certificate setemail_fails_env
           "user@example.com" None "mygateway" "mygateway.example.com" false
           ex_state 200 [("token", JStr "abc123")] ex_bundle econnreset);
    reflexivity.
Defined.

(** ** C7 *)

(** C7 (counterexample): the spec's own end-to-end scenario.  The
    registrar answers [{token: "abc123"}], every call succeeds and register
    reports success, but the persisted tunneltoken record is that answer:
    it has no name field equal to the requested subdomain. *)
Lemma register_persists_answer_without_name :
  let s' := fst (register ex_env "user@example.com" None "mygateway"
                          "mygateway.example.com" false ex_state) in
  callbacks (trace s') = [VUndef] /\
  settings s' "tunneltoken" = Some (JObj [("token", JStr "abc123")]) /\
  ~ (exists j, settings s' "tunneltoken" = Some j /\
               get_prop j "name" = inl (VJson (JStr "mygateway"))).
Proof.
  split; [vm_compute; reflexivity|]. split; [vm_compute; reflexivity|].
  intros [j [Hj Hn]]. vm_compute in Hj. injection Hj as <-.
  vm_compute in Hn. discriminate Hn.
Qed.

(** C7 (amended): without a reclamation token, when the subscribe answer
    is an object without a truthy error field and every later call
    succeeds, register ends with: the decoded subscribe answer persisted
    as the tunneltoken record (its name is whatever the registrar sent),
    the three files holding the single issued bundle, exactly one
    setemail request (with the answer's token, the email and the opt-out
    flag) and one callback call carrying nothing. *)
Theorem register_success_persists_answer (E : env) (email : string)
    (reclamationToken : option string) (subdomain fulldomain : string)
    (optout : bool) (s : state) (status : Z) (fields : list (string * json))
    (b : bundle) (mstatus : Z) (mbody : text_result)
    (Hsub : subscribe_out E = FetchOk status (Text (PJson (JObj fields))))
    (Herr : truthy (field fields "error") = false)
    (Hset : settings_set_fail E = None)
    (Hrounds : forallb round_answered (acme_rounds E) = true)
    (Hacme : acme_result E = inl b)
    (H1 : write_fail E (certificate_path E) = None)
    (H2 : write_fail E (privatekey_path E) = None)
    (H3 : write_fail E (chain_path E) = None)
    (Hrec : reclaimed reclamationToken = false)
    (Hmail : setemail_out E = FetchOk mstatus mbody) :
  let s' := fst (register E email reclamationToken subdomain fulldomain optout s) in
  settings s' "tunneltoken" = Some (JObj fields) /\
  bundle_on_disk E s' b /\
  setemail_requests (registration_endpoint E) (trace s') =
  (setemail_requests (registration_endpoint E) (trace s) ++
   [EFetch (setemail_url (registration_endpoint E)
                         (val_to_string (field fields "token")) email optout)])%list /\
  callbacks (trace s') = (callbacks (trace s) ++ [VUndef])%list.
Proof.
  cbv zeta.
  rewrite (register_reaches_setemail _ _ _ _ _ _ _ _ _ _ Hsub Herr Hset Hrounds
             Hacme H1 H2 H3 Hrec), Hmail.
  cbn [fst trace files settings]. split; [|split; [|split]].
  - rewrite String.eqb_refl. reflexivity.
  - unfold bundle_on_disk, set_file. cbn [files].
    autorewrite with cert_paths. auto.
  - rewrite !setemail_requests_app, setemail_requests_dns_requests.
    unfold setemail_requests at 2 3 4. cbn [filter].
    unfold is_setemail_request, subscribe_url, setemail_url.
    rewrite !prefix_app_cancel. reflexivity.
  - rewrite !callbacks_app, callbacks_dns_requests. reflexivity.
Qed.

Lemma register_success_persists_answer_witness :
  let s' := fst (register ex_env "user@example.com" None "mygateway"
                          "mygateway.example.com" false ex_state) in
  settings s' "tunneltoken" = Some (JObj [("token", JStr "abc123")]) /\
  bundle_on_disk ex_env s' ex_bundle /\
  setemail_requests "https://api.example.org" (trace s') =
  [EFetch "https://api.example.org/setemail?token=abc123&email=user@example.com&optout=false"] /\
  callbacks (trace s') = [VUndef].
Proof.
  apply (register_success_persists_answer ex_env "user@example.com" None "mygateway"
           "mygateway.example.com" false ex_state 200 [("token", JStr "abc123")]
           ex_bundle 200 (Text (PNotJson "")));
    reflexivity.
Defined.

(** ** C8 *)

Lemma has_char_app (c : ascii) (a b : string) :
  has_char c (a ++ b) = has_char c a || has_char c b.
Proof. induction a as [|d a IH]; simpl; [reflexivity|]. rewrite IH, orb_assoc. reflexivity. Qed.

Lemma all_chars_has_char (p : ascii -> bool) (c : ascii) (s : string) :
  all_chars p s = true -> p c = false -> has_char c s = false.
Proof.
  intros Hs Hc. induction s as [|d s IH]; simpl in *; [reflexivity|].
  apply andb_true_iff in Hs as [Hd Hs].
  destruct (Ascii.eqb_spec c d) as [->|_]; [congruence|]. simpl. exact (IH Hs).
Qed.

Lemma split_first_no_char (c : ascii) (a : string) :
  has_char c a = false -> split_first c a = (a, None).
Proof.
  induction a as [|d a IH]; simpl; intro H; [reflexivity|].
  apply orb_false_iff in H as [H1 H2]. rewrite H1, (IH H2). reflexivity.
Qed.

Lemma split_first_app (c : ascii) (a b : string) :
  has_char c a = false ->
  split_first c (a ++ b) = (a ++ fst (split_first c b), snd (split_first c b))%string.
Proof.
  induction a as [|d a IH]; simpl; intro H.
  - destruct (split_first c b); reflexivity.
  - apply orb_false_iff in H as [H1 H2]. rewrite H1, (IH H2). reflexivity.
Qed.

Lemma split_on_no_char (c : ascii) (a : string) :
  has_char c a = false -> split_on c a = [a].
Proof.
  induction a as [|d a IH]; simpl; intro H; [reflexivity|].
  apply orb_false_iff in H as [H1 H2]. rewrite H1, (IH H2). reflexivity.
Qed.

Lemma split_on_app (c : ascii) (a b : string) :
  has_char c a = false -> split_on c (a ++ String c b) = a :: split_on c b.
Proof.
  induction a as [|d a IH]; simpl; intro H.
  - rewrite Ascii.eqb_refl. reflexivity.
  - apply orb_false_iff in H as [H1 H2]. rewrite H1, (IH H2). reflexivity.
Qed.

Lemma form_decode_plain (s : string) :
  has_char "+" s = false -> has_char "%" s = false -> form_decode s = s.
Proof.
  induction s as [|d s IH]; intros H1 H2; [reflexivity|].
  cbn [has_char] in H1, H2. cbn [form_decode].
  apply orb_false_iff in H1 as [H1 H1'], H2 as [H2 H2'].
  rewrite Ascii.eqb_sym in H1, H2. rewrite H1, H2, (IH H1' H2'). reflexivity.
Qed.

Lemma dnsconfig_query_params (endpoint token keyAuthDigest : string)
    (Hep : has_char "?" endpoint = false) (Hep' : has_char "#" endpoint = false)
    (Htok : has_char "&" token = false) (Htok' : has_char "#" token = false)
    (Hd : all_chars is_base64url_char keyAuthDigest = true) :
  query_params (dnsconfig_url endpoint token keyAuthDigest) =
  [("token", form_decode token); ("challenge", keyAuthDigest)].
Proof.
  assert (Hamp : has_char "&" keyAuthDigest = false)
    by (apply (all_chars_has_char is_base64url_char); auto).
  assert (Hhash : has_char "#" keyAuthDigest = false)
    by (apply (all_chars_has_char is_base64url_char); auto).
  assert (Hplus : has_char "+" keyAuthDigest = false)
    by (apply (all_chars_has_char is_base64url_char); auto).
  assert (Hpct : has_char "%" keyAuthDigest = false)
    by (apply (all_chars_has_char is_base64url_char); auto).
  unfold query_params, request_query, dnsconfig_url.
  rewrite (split_first_app _ _ _ Hep). simpl.
  rewrite split_first_no_char.
  2:{ simpl. rewrite has_char_app, Htok'. simpl. exact Hhash. }
  cbn [fst snd]. simpl.
  rewrite (split_on_app _ _ _ Htok). simpl.
  rewrite (split_on_no_char _ _ Hamp). simpl.
  rewrite (form_decode_plain _ Hplus Hpct).
  reflexivity.
Qed.

(** C8: in every challenge round, the request [leDnsResponse] sends is the
    dnsconfig URL whose [challenge] parameter, as the registration server
    decodes the query, is exactly the key-authorization digest greenlock
    handed over (digests are base64url; the endpoint has no query or
    fragment of its own and the token no [&] or [#]). *)
Theorem leDnsResponse_sends_digest_verbatim (endpoint : string) (token : val)
    (keyAuthDigest : string) (out : fetch_result) (s : state)
    (Hep : has_char "?" endpoint = false) (Hep' : has_char "#" endpoint = false)
    (Htok : has_char "&" (val_to_string token) = false)
    (Htok' : has_char "#" (val_to_string token) = false)
    (Hd : all_chars is_base64url_char keyAuthDigest = true) :
  exists rest,
    trace (fst (leDnsResponse endpoint token keyAuthDigest out s)) =
      (trace s ++ EFetch (dnsconfig_url endpoint (val_to_string token) keyAuthDigest)
                 :: rest)%list /\
    query_param (dnsconfig_url endpoint (val_to_string token) keyAuthDigest) "challenge" =
      Some keyAuthDigest.
Proof.
  split with (match out with
              | FetchOk _ (Text _) => []
              | FetchOk _ (TextFail e) | FetchFail e =>
                  [ELog "Failed to set DNS token on registration server:"; ECallback (VErr e)]
              end).
  split.
  - destruct out as [status [p|e]|e]; cbn; rewrite <- ?app_assoc; reflexivity.
  - unfold query_param.
    rewrite (dnsconfig_query_params _ _ _ Hep Hep' Htok Htok' Hd). reflexivity.
Qed.

Lemma leDnsResponse_sends_digest_verbatim_witness :
  exists rest,
    trace (fst (leDnsResponse "https://api.example.org" (VJson (JStr "abc123"))
                  "p5mY0yjdqPmvjD1Xv8GWjlBdnX-fr1Ylj_3pxOkbNQQ"
                  (FetchOk 200 (Text (PNotJson ""))) ex_state)) =
      (trace ex_state ++
       EFetch (dnsconfig_url "https://api.example.org" "abc123"
                 "p5mY0yjdqPmvjD1Xv8GWjlBdnX-fr1Ylj_3pxOkbNQQ") :: rest)%list /\
    query_param (dnsconfig_url "https://api.example.org" "abc123"
                   "p5mY0yjdqPmvjD1Xv8GWjlBdnX-fr1Ylj_3pxOkbNQQ") "challenge" =
      Some "p5mY0yjdqPmvjD1Xv8GWjlBdnX-fr1Ylj_3pxOkbNQQ".
Proof.
  apply (leDnsResponse_sends_digest_verbatim "https://api.example.org"
           (VJson (JStr "abc123")) "p5mY0yjdqPmvjD1Xv8GWjlBdnX-fr1Ylj_3pxOkbNQQ"
           (FetchOk 200 (Text (PNotJson ""))) ex_state);
    vm_compute; reflexivity.
Defined.

(** ** C9 *)

Section GetRulesFacts.

Import Rules.

Context (Desc : Type) (JSON_parse : string -> Desc) (migrate : Desc -> option Desc).

Lemma obj_get_obj_set (rules : list (Z * Desc)) (k k' : Z) (v : Desc) :
  obj_get Desc (obj_set Desc rules k v) k' =
  if Z.eqb k' k then Some v else obj_get Desc rules k'.
Proof.
  induction rules as [|[k0 v0] r IH]; simpl.
  - reflexivity.
  - destruct (Z.eqb_spec k k0) as [->|Hne]; simpl.
    + destruct (Z.eqb k' k0); reflexivity.
    + rewrite IH. destruct (Z.eqb_spec k' k) as [->|]; [|reflexivity].
      apply Z.eqb_neq in Hne. rewrite Hne. reflexivity.
Qed.

Lemma rows_loop_updates (rows : list row) rules updatePromises :
  snd (rows_loop Desc JSON_parse migrate rows rules updatePromises) =
  (updatePromises ++ changed_rows Desc JSON_parse migrate rows)%list.
Proof.
  revert rules updatePromises.
  induction rows as [|r rs IH]; intros rules ups; simpl.
  - rewrite app_nil_r. reflexivity.
  - destruct (migrate (JSON_parse (row_description r))); rewrite IH;
      [rewrite <- app_assoc|]; reflexivity.
Qed.

Lemma find_row_absent (rs : list row) (k : Z) :
  ~ In k (map row_id rs) -> find (fun r => Z.eqb (row_id r) k) rs = None.
Proof.
  induction rs as [|r rs IH]; simpl; intro H; [reflexivity|].
  destruct (Z.eqb_spec (row_id r) k); [tauto|]. apply IH. tauto.
Qed.

Lemma rows_loop_rules (rows : list row) rules updatePromises (k : Z) :
  NoDup (map row_id rows) ->
  obj_get Desc (fst (rows_loop Desc JSON_parse migrate rows rules updatePromises)) k =
  match find (fun r => Z.eqb (row_id r) k) rows with
  | Some r => Some (migrated Desc JSON_parse migrate r)
  | None => obj_get Desc rules k
  end.
Proof.
  revert rules updatePromises.
  induction rows as [|r rs IH]; intros rules ups Hnd; simpl; [reflexivity|].
  inversion Hnd as [|? ? Hnotin Hnd']; subst.
  assert (Hstep : obj_get Desc (fst (rows_loop Desc JSON_parse migrate (r :: rs) rules ups)) k =
                  match find (fun r0 => Z.eqb (row_id r0) k) rs with
                  | Some r0 => Some (migrated Desc JSON_parse migrate r0)
                  | None => obj_get Desc (obj_set Desc rules (row_id r)
                                            (migrated Desc JSON_parse migrate r)) k
                  end).
  { simpl. unfold migrated at 2.
    destruct (migrate (JSON_parse (row_description r))); apply IH; exact Hnd'. }
  simpl in Hstep. rewrite Hstep. clear Hstep.
  rewrite obj_get_obj_set.
  destruct (Z.eqb_spec (row_id r) k) as [<-|Hne].
  - rewrite (find_row_absent _ _ Hnotin), Z.eqb_refl. reflexivity.
  - destruct (find (fun r0 => Z.eqb (row_id r0) k) rs); [reflexivity|].
    destruct (Z.eqb_spec k (row_id r)); [congruence|reflexivity].
Qed.

Lemma find_row_present (rows : list row) (r : row) :
  NoDup (map row_id rows) -> In r rows ->
  find (fun r' => Z.eqb (row_id r') (row_id r)) rows = Some r.
Proof.
  induction rows as [|r0 rs IH]; simpl; intros Hnd Hin; [contradiction|].
  inversion Hnd as [|? ? Hnotin Hnd']; subst.
  destruct Hin as [<-|Hin].
  - rewrite Z.eqb_refl. reflexivity.
  - destruct (Z.eqb_spec (row_id r0) (row_id r)) as [Heq|].
    + exfalso. apply Hnotin. rewrite Heq. apply in_map. exact Hin.
    + apply IH; assumption.
Qed.

(** C9: for a table of rules (ids unique, the primary key), [getRules]
    calls [updateRule(id, desc)] exactly for the rows whose description
    the migration changed, with the migrated description; when those
    updates succeed it resolves to the object mapping every row id to its
    migrated description, or to the stored description when the migration
    left it unchanged, and to nothing else; and it resolves only after
    every one of those updates has succeeded. *)
Theorem getRules_migrates_and_persists (rows : list row)
    (updateRule_ok : Z -> Desc -> bool)
    (Hids : NoDup (map row_id rows)) :
  let r := getRules Desc JSON_parse migrate (inl rows) updateRule_ok in
  fst r = changed_rows Desc JSON_parse migrate rows /\
  (forallb (fun u => updateRule_ok (fst u) (snd u)) (fst r) = true ->
   exists rules, snd r = Resolved Desc rules /\
     (forall row, In row rows ->
        obj_get Desc rules (row_id row) = Some (migrated Desc JSON_parse migrate row)) /\
     (forall k, ~ In k (map row_id rows) -> obj_get Desc rules k = None)) /\
  (forall rules, snd r = Resolved Desc rules ->
   forallb (fun u => updateRule_ok (fst u) (snd u)) (fst r) = true).
Proof.
  cbv zeta. unfold getRules.
  pose proof (rows_loop_updates rows [] []) as Hups.
  pose proof (fun k => rows_loop_rules rows [] [] k Hids) as Hget.
  destruct (rows_loop Desc JSON_parse migrate rows [] []) as [rules ups].
  simpl in Hups, Hget |- *. subst ups.
  split; [reflexivity|]. split.
  - intro Hok. rewrite Hok. exists rules. split; [reflexivity|]. split.
    + intros row Hin. rewrite Hget, (find_row_present _ _ Hids Hin). reflexivity.
    + intros k Hk. rewrite Hget, (find_row_absent _ _ Hk). reflexivity.
  - intros rules' H.
    destruct (forallb _ (changed_rows Desc JSON_parse migrate rows)); [reflexivity|discriminate].
Qed.

End GetRulesFacts.

Lemma getRules_migrates_and_persists_witness :
  NoDup [1%Z; 2%Z] /\
  exists rules,
    snd (Rules.getRules string (fun s => s)
           (fun d => if String.eqb d "v1" then Some "v2" else None)
           (inl [Rules.mkRow 1 "v1"; Rules.mkRow 2 "v2"]) (fun _ _ => true)) =
      Rules.Resolved string rules /\
    Rules.obj_get string rules 1 = Some "v2" /\
    Rules.obj_get string rules 2 = Some "v2".
Proof.
  assert (Hnd : NoDup [1%Z; 2%Z]).
  { constructor; [simpl; intros [H|[]]; discriminate|].
    constructor; [intros []|constructor]. }
  split; [exact Hnd|].
  destruct (getRules_migrates_and_persists string (fun s => s)
              (fun d => if String.eqb d "v1" then Some "v2" else None)
              [Rules.mkRow 1 "v1"; Rules.mkRow 2 "v2"] (fun _ _ => true) Hnd)
    as [_ [Hres _]].
  destruct (Hres eq_refl) as [rules [Hr [Hin _]]].
  exists rules. split; [exact Hr|]. split.
  - exact (Hin (Rules.mkRow 1 "v1") (or_introl eq_refl)).
  - exact (Hin (Rules.mkRow 2 "v2") (or_intror (or_introl eq_refl))).
Defined.

(* ================================================================== *)
(** * Further properties of the certificate manager and the rule store *)

(** ** Frame lemmas *)

Section Keeps.

Context {X : Type} (obs : state -> X) (Hblind : trace_blind obs).

Lemma keeps_ret {A} (a : A) : keeps obs (ret a).
Proof. intro s. reflexivity. Qed.

Lemma keeps_throw {A} (v : val) : keeps obs (@throw A v).
Proof. intro s. reflexivity. Qed.

Lemma keeps_emit (e : event) : keeps obs (emit e).
Proof. intro s. exact (Hblind s [e]). Qed.

Lemma keeps_bind {A B} (m : M A) (k : A -> M B) :
  keeps obs m -> (forall a, keeps obs (k a)) -> keeps obs (bind m k).
Proof.
  intros Hm Hk s. unfold bind. specialize (Hm s).
  destruct (m s) as [s1 [a|v]]; simpl in *; [rewrite Hk|]; exact Hm.
Qed.

Lemma keeps_try_catch {A} (m : M A) (h : val -> M A) :
  keeps obs m -> (forall v, keeps obs (h v)) -> keeps obs (try_catch m h).
Proof.
  intros Hm Hh s. unfold try_catch. specialize (Hm s).
  destruct (m s) as [s1 [a|v]]; simpl in *; [|rewrite Hh]; exact Hm.
Qed.

Lemma keeps_fetch (url : string) (out : fetch_result) : keeps obs (fetch url out).
Proof.
  unfold fetch. apply keeps_bind; [apply keeps_emit|].
  intros _. destruct out; [apply keeps_ret | apply keeps_throw].
Qed.

Lemma keeps_res_text (t : text_result) : keeps obs (res_text t).
Proof. destruct t; [apply keeps_ret | apply keeps_throw]. Qed.

Lemma keeps_json_parse (p : payload) : keeps obs (json_parse p).
Proof. destruct p; [apply keeps_ret | apply keeps_throw]. Qed.

Lemma keeps_prop (j : json) (k : string) : keeps obs (prop j k).
Proof. unfold prop. destruct (get_prop j k); [apply keeps_ret | apply keeps_throw]. Qed.

Lemma keeps_val_prop (v : val) (k : string) : keeps obs (val_prop v k).
Proof.
  destruct v; simpl; [apply keeps_throw | apply keeps_prop | apply keeps_ret | apply keeps_ret].
Qed.

Lemma keeps_settings_get (E : env) (key : string) : keeps obs (settings_get E key).
Proof.
  intro s. unfold settings_get.
  destruct (settings_get_fail E); [reflexivity|]. destruct (settings s key); reflexivity.
Qed.

End Keeps.

Lemma trace_blind_files (p : string) : trace_blind (fun s => files s p).
Proof. intros s l. reflexivity. Qed.

Lemma trace_blind_settings (k : string) : trace_blind (fun s => settings s k).
Proof. intros s l. reflexivity. Qed.

Lemma keeps_files_settings_set (E : env) (key : string) (v : json) (p : string) :
  keeps (fun s => files s p) (settings_set E key v).
Proof. intro s. unfold settings_set. destruct (settings_set_fail E); reflexivity. Qed.

Lemma keeps_settings_settings_set (E : env) (key k : string) (v : json) :
  k <> key -> keeps (fun s => settings s k) (settings_set E key v).
Proof.
  intros Hk s. unfold settings_set. destruct (settings_set_fail E); [reflexivity|].
  simpl. apply String.eqb_neq in Hk. rewrite Hk. reflexivity.
Qed.

Lemma keeps_settings_writeFileSync out (p c k : string) :
  keeps (fun s => settings s k) (writeFileSync out p c).
Proof. intro s. unfold writeFileSync. destruct (out p) as [[e [t|]]|]; reflexivity. Qed.

Lemma keeps_files_writeFileSync out (p c q : string) :
  q <> p -> keeps (fun s => files s q) (writeFileSync out p c).
Proof.
  intros Hq s. unfold writeFileSync. apply String.eqb_neq in Hq.
  destruct (out p) as [[e [t|]]|]; simpl; try rewrite Hq; reflexivity.
Qed.

Ltac keeps_step :=
  match goal with
  | |- keeps _ (bind _ _) => apply keeps_bind; [|intro]
  | |- keeps _ (try_catch _ _) => apply keeps_try_catch; [|intro]
  | |- keeps _ (ret _) => apply keeps_ret
  | |- keeps _ (throw _) => apply keeps_throw
  | |- keeps _ (emit _) => apply keeps_emit
  | |- keeps _ (callback _) => apply keeps_emit
  | |- keeps _ (log_error _) => apply keeps_emit
  | |- keeps _ (fetch _ _) => apply keeps_fetch
  | |- keeps _ (res_text _) => apply keeps_res_text
  | |- keeps _ (json_parse _) => apply keeps_json_parse
  | |- keeps _ (prop _ _) => apply keeps_prop
  | |- keeps _ (val_prop _ _) => apply keeps_val_prop
  | |- keeps _ (settings_get _ _) => apply keeps_settings_get
  | |- keeps _ (if ?b then _ else _) => destruct b
  | |- keeps _ (match ?x with _ => _ end) => destruct x
  end.

Lemma keeps_dns_rounds {X} (obs : state -> X) (Hblind : trace_blind obs)
    (endpoint : string) (token : val) rounds :
  keeps obs (dns_challenge_rounds endpoint token rounds).
Proof.
  induction rounds as [|[d out] r IH]; simpl; [apply keeps_ret|].
  apply keeps_bind; [|intros _; exact IH].
  unfold leDnsResponse. repeat keeps_step; auto.
Qed.

Lemma keeps_le_register {X} (obs : state -> X) (Hblind : trace_blind obs)
    (E : env) (domain challengeType : string) (challenge : M unit) :
  keeps obs challenge -> keeps obs (le_register E domain challengeType challenge).
Proof.
  intro Hc. unfold le_register. repeat keeps_step; auto.
Qed.

Lemma keeps_settings_writeCertificates (E : env) (b : bundle) (k : string) :
  keeps (fun s => settings s k) (writeCertificates E b).
Proof.
  unfold writeCertificates.
  repeat (apply keeps_bind; [apply keeps_settings_writeFileSync|intros _]).
  apply keeps_settings_writeFileSync.
Qed.

Lemma keeps_files_writeCertificates (E : env) (b : bundle) (p : string) :
  p <> certificate_path E -> p <> privatekey_path E -> p <> chain_path E ->
  keeps (fun s => files s p) (writeCertificates E b).
Proof.
  intros H1 H2 H3. unfold writeCertificates.
  apply keeps_bind; [apply keeps_files_writeFileSync; exact H1|intros _].
  apply keeps_bind; [apply keeps_files_writeFileSync; exact H2|intros _].
  apply keeps_files_writeFileSync; exact H3.
Qed.

Lemma appends_only_settings_get (P : event -> bool) (E : env) (key : string) :
  appends_only P (settings_get E key).
Proof.
  intro s. exists []. rewrite app_nil_r. unfold settings_get.
  destruct (settings_get_fail E); [split; reflexivity|].
  destruct (settings s key); split; reflexivity.
Qed.

Lemma appends_only_val_prop (P : event -> bool) (v : val) (k : string) :
  appends_only P (val_prop v k).
Proof.
  destruct v; simpl;
    [apply appends_only_throw | apply appends_only_prop
    | apply appends_only_ret | apply appends_only_ret].
Qed.

Ltac frame_step :=
  first
    [ keeps_step
    | apply keeps_files_settings_set
    | apply keeps_settings_settings_set; congruence
    | apply keeps_settings_writeCertificates
    | apply keeps_files_writeCertificates; assumption
    | apply keeps_le_register; [assumption|]
    | apply keeps_dns_rounds
    | assumption ].



(** X3: renew sends no request through [fetch]: it never contacts the
    registration server, only the ACME client. *)
Theorem renew_never_fetches (E : env) (s : state) :
  exists l, trace (fst (renew E s)) = (trace s ++ l)%list /\ forallb not_fetch l = true.
Proof.
  revert s. change (appends_only not_fetch (renew E)).
  unfold renew, le_register, writeCertificates.
  repeat first
    [ appends_only_step
    | apply appends_only_settings_get
    | apply appends_only_val_prop
    | reflexivity ].
Qed.

(** ** renew: the runs with a stored record *)

Lemma renew_loaded (E : env) (s : state) (j : json)
    (Hget : settings_get_fail E = None)
    (Hrec : settings s "tunneltoken" = Some j)
    (v : val) (Hname : get_prop j "name" = inl v) :
  renew E s =
  try_catch
    (results <- le_register E (val_to_string v ++ "." ++ ssl_domain E) "http-01" (ret tt) ;;
     writeCertificates E results)
    (fun _ => log_error "Renewal failed:") s.
Proof.
  unfold renew, bind at 1, try_catch at 1, bind at 1.
  unfold settings_get. rewrite Hget, Hrec. cbn [fst snd ret].
  unfold val_prop, prop. rewrite Hname. reflexivity.
Qed.

Lemma writeCertificates_extends (E : env) (b : bundle) (s : state) :
  exists l, trace (fst (writeCertificates E b s)) = (trace s ++ l)%list.
Proof.
  assert (H : appends_only (fun _ => true) (writeCertificates E b)).
  { unfold writeCertificates. repeat (appends_only_step; try reflexivity). }
  destruct (H s) as [l [Hl _]]. exists l. exact Hl.
Qed.

Lemma renew_first_event (E : env) (s : state) (j : json)
    (Hget : settings_get_fail E = None)
    (Hrec : settings s "tunneltoken" = Some j)
    (v : val) (Hname : get_prop j "name" = inl v) :
  exists l, trace (fst (renew E s)) =
    (trace s ++ EAcme (val_to_string v ++ "." ++ ssl_domain E) "http-01" (certemail E) :: l)%list.
Proof.
  rewrite (renew_loaded E s j Hget Hrec v Hname).
  cbv [try_catch bind le_register emit ret].
  destruct (acme_result E) as [b|e]; cbn [fst snd trace].
  - match goal with |- context [writeCertificates E b ?s1] =>
      destruct (writeCertificates_extends E b s1) as [l Hl];
      destruct (writeCertificates E b s1) as [s2 [u|w]]
    end; cbn [fst snd trace] in *.
    + exists l. rewrite Hl. rewrite <- app_assoc. reflexivity.
    + exists (l ++ [ELog "Renewal failed:"])%list. unfold log_error, emit. cbn [fst trace].
      rewrite Hl. rewrite <- !app_assoc. reflexivity.
  - exists [ELog "Renewal failed:"]. simpl. rewrite <- app_assoc. reflexivity.
Qed.

Lemma try_catch_log_ok (m : M unit) (msg : string) (s : state) :
  snd (try_catch m (fun _ => log_error msg) s) = Ok tt.
Proof. unfold try_catch. destruct (m s) as [s' [[]|v]]; reflexivity. Qed.

Lemma get_prop_not_null (j : json) (k : string) :
  j <> JNull -> exists v, get_prop j k = inl v.
Proof.
  intro Hj. destruct j; simpl; try (eexists; reflexivity).
  - congruence.
  - destruct (assoc_last k fields); eexists; reflexivity.
Qed.

(** X4: renew settles its promise in every run but one: its promise rejects
    (with the TypeError of reading [name] of [null]) exactly when the
    settings store answers with a [null] record; then nothing else
    happens.  Missing records, store failures, ACME failures and write
    failures are all caught. *)
Theorem renew_rejects_only_on_null_record (E : env) (s : state) :
  (settings_get_fail E = None -> settings s "tunneltoken" = Some JNull ->
     renew E s = (s, Throw (VErr type_error))) /\
  ((settings_get_fail E = None -> settings s "tunneltoken" <> Some JNull) ->
     snd (renew E s) = Ok tt).
Proof.
  split.
  - intros Hget Hrec. unfold renew, bind at 1, try_catch at 1, bind at 1.
    unfold settings_get. rewrite Hget, Hrec. reflexivity.
  - intros Hnn. destruct (settings_get_fail E) as [e|] eqn:Hget.
    + unfold renew, bind at 1, try_catch at 1, bind at 1.
      unfold settings_get. rewrite Hget. reflexivity.
    + destruct (settings s "tunneltoken") as [j|] eqn:Hrec.
      * assert (Hj : j <> JNull) by (intro Hj; subst j; exact (Hnn eq_refl eq_refl)).
        destruct (get_prop_not_null j "name" Hj) as [v Hv].
        rewrite (renew_loaded E s j Hget Hrec v Hv). apply try_catch_log_ok.
      * unfold renew, bind at 1, try_catch at 1, bind at 1.
        unfold settings_get. rewrite Hget, Hrec. reflexivity.
Qed.

(** X5: A renewal with a stored record object, an issued bundle and working
    writes: one ACME call with the http-01 challenge for
    [<record.name>.<ssltunnel.domain>], then the three writes; the bundle
    is on disk and the promise resolves. *)
Theorem renew_success (E : env) (s : state) (fields : list (string * json)) (b : bundle)
    (Hget : settings_get_fail E = None)
    (Hrec : settings s "tunneltoken" = Some (JObj fields))
    (Hacme : acme_result E = inl b)
    (H1 : write_fail E (certificate_path E) = None)
    (H2 : write_fail E (privatekey_path E) = None)
    (H3 : write_fail E (chain_path E) = None) :
  snd (renew E s) = Ok tt /\
  bundle_on_disk E (fst (renew E s)) b /\
  trace (fst (renew E s)) =
    (trace s ++ [EAcme (val_to_string (field fields "name") ++ "." ++ ssl_domain E)
                       "http-01" (certemail E);
                 EWrite (certificate_path E) (cert b);
                 EWrite (privatekey_path E) (privkey b);
                 EWrite (chain_path E) (chain b)])%list.
Proof.
  rewrite (renew_loaded E s (JObj fields) Hget Hrec _ (get_prop_obj fields "name")).
  cbv [try_catch bind le_register emit ret]. rewrite Hacme.
  rewrite writeCertificates_ok by assumption. cbn [fst snd trace files].
  split; [reflexivity|]. split.
  - unfold bundle_on_disk, set_file. cbn [files]. autorewrite with cert_paths.
    repeat split; reflexivity.
  - rewrite <- app_assoc. reflexivity.
Qed.


(** X7: A stored record without a [name] property: the template literal
    renders [undefined], so renew asks the ACME client for a certificate
    of [undefined.<ssltunnel.domain>], and still resolves. *)
Theorem renew_missing_name_requests_undefined (E : env) (s : state)
    (fields : list (string * json))
    (Hget : settings_get_fail E = None)
    (Hrec : settings s "tunneltoken" = Some (JObj fields))
    (Hname : assoc_last "name" fields = None) :
  snd (renew E s) = Ok tt /\
  exists l, trace (fst (renew E s)) =
    (trace s ++ EAcme ("undefined." ++ ssl_domain E) "http-01" (certemail E) :: l)%list.
Proof.
  assert (Hv : get_prop (JObj fields) "name" = inl VUndef).
  { rewrite get_prop_obj. unfold field. rewrite Hname. reflexivity. }
  split.
  - rewrite (renew_loaded E s (JObj fields) Hget Hrec VUndef Hv). apply try_catch_log_ok.
  - exact (renew_first_event E s (JObj fields) Hget Hrec VUndef Hv).
Qed.

(** ** register: the runs that stop early *)

(** X8: Every way the subscription can fail before its answer is stored
    (network failure, unreadable body, a body that is not JSON, the JSON
    value [null]) ends register the same way: the failure is logged and
    passed to the callback once; no setting is written, no ACME call and
    no further request is made, and the promise resolves. *)
Theorem register_subscribe_failure (E : env) (email : string)
    (rt : option string) (subdomain fulldomain : string) (optout : bool) (s : state) :
  let url := subscribe_url (registration_endpoint E) subdomain email rt in
  let run := register E email rt subdomain fulldomain optout s in
  let failed v := (add_trace s [EFetch url; ELog "Failed to subscribe:"; ECallback v], Ok tt) in
  (forall e, subscribe_out E = FetchFail e -> run = failed (VErr e)) /\
  (forall status e, subscribe_out E = FetchOk status (TextFail e) -> run = failed (VErr e)) /\
  (forall status txt, subscribe_out E = FetchOk status (Text (PNotJson txt)) ->
     run = failed (VErr syntax_error)) /\
  (forall status, subscribe_out E = FetchOk status (Text (PJson JNull)) ->
     run = failed (VErr type_error)).
Proof.
  cbv zeta.
  repeat split; intros * Hsub;
    cbv [register subscribe_step try_catch bind fetch emit ret throw
         res_text json_parse prop get_prop callback log_error];
    rewrite Hsub; unfold add_trace; cbn [fst snd files settings trace];
    rewrite <- !app_assoc; reflexivity.
Qed.

(** X9: When saving the subscription answer fails, register passes the error
    of the settings store to the callback once and stops: nothing is
    stored, no ACME call is made and no certificate is written. *)
Theorem register_settings_failure (E : env) (email : string)
    (rt : option string) (subdomain fulldomain : string) (optout : bool) (s : state)
    (status : Z) (fields : list (string * json)) (e : exn)
    (Hsub : subscribe_out E = FetchOk status (Text (PJson (JObj fields))))
    (Herr : truthy (field fields "error") = false)
    (Hset : settings_set_fail E = Some e) :
  register E email rt subdomain fulldomain optout s =
  (add_trace s [EFetch (subscribe_url (registration_endpoint E) subdomain email rt);
                ELog "Failed to subscribe:"; ECallback (VErr e)], Ok tt).
Proof.
  unfold register, subscribe_step, try_catch, bind, fetch, emit, ret, res_text,
         json_parse, prop, settings_set, callback, log_error.
  rewrite Hsub. cbn -[get_prop truthy field].
  rewrite get_prop_obj. cbn -[get_prop truthy field]. rewrite Herr.
  cbn -[get_prop field]. rewrite get_prop_obj. cbn -[field]. rewrite Hset.
  unfold add_trace. cbn -[field]. rewrite <- !app_assoc. reflexivity.
Qed.

Lemma le_register_rejected (E : env) (domain : string) (token : val) (e : exn)
    (s : state)
    (Hrounds : forallb round_answered (acme_rounds E) = true)
    (Hacme : acme_result E = inr e) :
  le_register E domain "dns-01"
    (dns_challenge_rounds (registration_endpoint E) token (acme_rounds E)) s =
  (add_trace s (EAcme domain "dns-01" (certemail E)
                :: dns_requests (registration_endpoint E) token (acme_rounds E)),
   Throw (VErr e)).
Proof.
  unfold le_register, bind at 1. cbn [emit].
  unfold bind. rewrite (dns_rounds_answered _ _ _ _ Hrounds). rewrite Hacme.
  unfold throw, add_trace. simpl. rewrite <- app_assoc. reflexivity.
Qed.

Lemma register_issuance_failure_run (E : env) (email : string)
    (rt : option string) (subdomain fulldomain : string) (optout : bool) (s : state)
    (status : Z) (fields : list (string * json)) (e : exn)
    (Hsub : subscribe_out E = FetchOk status (Text (PJson (JObj fields))))
    (Herr : truthy (field fields "error") = false)
    (Hset : settings_set_fail E = None)
    (Hrounds : forallb round_answered (acme_rounds E) = true)
    (Hacme : acme_result E = inr e) :
  register E email rt subdomain fulldomain optout s =
  (mkState (files s)
           (fun k => if String.eqb k "tunneltoken" then Some (JObj fields)
                     else settings s k)
           (trace s ++
            [EFetch (subscribe_url (registration_endpoint E) subdomain email rt);
             ESettingsSet "tunneltoken" (JObj fields);
             EAcme fulldomain "dns-01" (certemail E)] ++
            dns_requests (registration_endpoint E) (field fields "token") (acme_rounds E) ++
            ELog "Registration failed:" ::
            match registration_error_arg (VErr e) with
            | inl v => [ECallback v; ECallback VUndef]
            | inr _ => []
            end)%list,
   match registration_error_arg (VErr e) with
   | inl _ => Ok tt
   | inr t => Throw t
   end).
Proof.
  unfold register, bind at 1.
  rewrite (subscribe_step_stores_answer _ _ _ _ _ _ _ Hsub Herr Hset).
  cbv beta iota. unfold issue_step, bind at 1, try_catch at 1, bind at 1.
  rewrite (le_register_rejected _ _ _ _ _ Hrounds Hacme).
  unfold log_error, callback, emit, bind, ret, throw, add_trace.
  destruct (registration_error_arg (VErr e)); cbn [fst snd files settings trace];
    repeat (rewrite <- app_assoc; cbn); reflexivity.
Qed.

(** ** The value passed to the callback when issuance fails *)

Lemma index_newline_none (m : string) :
  has_char (ascii_of_nat 10) m = false -> String.index 0 newline m = None.
Proof.
  induction m as [|c m IH]; intro H; [reflexivity|].
  cbn [has_char] in H. apply orb_false_iff in H as [Hc Hm].
  cbn [String.index]. unfold newline. cbn [String.prefix].
  destruct (ascii_dec (ascii_of_nat 10) c) as [Heq|Hne].
  - subst c. rewrite Ascii.eqb_refl in Hc. discriminate.
  - fold newline. rewrite (IH Hm). reflexivity.
Qed.

Lemma index_newline_app (a b : string) :
  has_char (ascii_of_nat 10) a = false ->
  String.index 0 newline (a ++ newline ++ b) = Some (String.length a).
Proof.
  induction a as [|c a IH]; intro H.
  - destruct b; reflexivity.
  - cbn [has_char] in H. apply orb_false_iff in H as [Hc Ha].
    cbn [append String.index]. unfold newline at 1. cbn [String.prefix].
    destruct (ascii_dec (ascii_of_nat 10) c) as [Heq|Hne].
    + subst c. rewrite Ascii.eqb_refl in Hc. discriminate.
    + rewrite (IH Ha). reflexivity.
Qed.

Lemma substring_length_app (a rest : string) :
  substring 0 (String.length a) (a ++ rest) = a.
Proof.
  induction a as [|c a IH]; simpl.
  - destruct rest; reflexivity.
  - rewrite IH. reflexivity.
Qed.


Lemma callbacks_issuance_failure_trace (tr : list event) (u1 u2 : string) (j : json)
    (d c : string) (endpoint : string) (token : val) rounds (tail : list event) :
  callbacks (tr ++ [EFetch u1; ESettingsSet u2 j; EAcme d "dns-01" c] ++
             dns_requests endpoint token rounds ++ ELog "Registration failed:" :: tail)%list =
  (callbacks tr ++ callbacks tail)%list.
Proof.
  rewrite !callbacks_app, callbacks_dns_requests. reflexivity.
Qed.



(** ** The reclamation token in the subscription URL *)

Lemma list_ascii_of_string_app (a b : string) :
  list_ascii_of_string (a ++ b) = (list_ascii_of_string a ++ list_ascii_of_string b)%list.
Proof. induction a as [|c a IH]; simpl; [reflexivity|]. rewrite IH. reflexivity. Qed.

Lemma string_of_list_ascii_app (l1 l2 : list ascii) :
  string_of_list_ascii (l1 ++ l2) = string_of_list_ascii l1 ++ string_of_list_ascii l2.
Proof. induction l1 as [|c l IH]; simpl; [reflexivity|]. rewrite IH. reflexivity. Qed.

Lemma string_rev_app (a b : string) :
  string_rev (a ++ b) = string_rev b ++ string_rev a.
Proof.
  unfold string_rev. rewrite list_ascii_of_string_app, rev_app_distr.
  apply string_of_list_ascii_app.
Qed.

Lemma string_rev_involutive (a : string) : string_rev (string_rev a) = a.
Proof.
  unfold string_rev. rewrite list_ascii_of_string_of_list_ascii, rev_involutive.
  apply string_of_list_ascii_of_string.
Qed.

Lemma all_chars_forallb (p : ascii -> bool) (s : string) :
  all_chars p s = forallb p (list_ascii_of_string s).
Proof. induction s as [|c s IH]; simpl; [reflexivity|]. rewrite IH. reflexivity. Qed.

Lemma forallb_rev {T} (p : T -> bool) (l : list T) : forallb p (rev l) = forallb p l.
Proof.
  induction l as [|x l IH]; simpl; [reflexivity|].
  rewrite forallb_app, IH. simpl. rewrite andb_true_r. apply andb_comm.
Qed.

Lemma all_chars_rev (p : ascii -> bool) (s : string) :
  all_chars p (string_rev s) = all_chars p s.
Proof.
  unfold string_rev. rewrite !all_chars_forallb, list_ascii_of_string_of_list_ascii.
  apply forallb_rev.
Qed.

Lemma trim_start_spaces (w x : string) :
  all_chars is_js_space w = true -> trim_start (w ++ x) = trim_start x.
Proof.
  induction w as [|c w IH]; intro H; [reflexivity|].
  cbn [all_chars] in H. apply andb_true_iff in H as [Hc Hw].
  cbn [append trim_start]. rewrite Hc. exact (IH Hw).
Qed.

Lemma trim_start_spaces_only (w : string) :
  all_chars is_js_space w = true -> trim_start w = "".
Proof.
  induction w as [|c w IH]; intro H; [reflexivity|].
  cbn [all_chars] in H. apply andb_true_iff in H as [Hc Hw].
  cbn [trim_start]. rewrite Hc. exact (IH Hw).
Qed.

Lemma string_nonempty_last (t : string) :
  t <> "" -> exists t' c, t = t' ++ String c "".
Proof.
  induction t as [|c t IH]; intro H; [congruence|].
  destruct t as [|d t].
  - exists "", c. reflexivity.
  - destruct IH as [t' [c' Ht]]; [discriminate|].
    exists (String c t'), c'. rewrite Ht. reflexivity.
Qed.

Lemma trim_surrounded (w1 t w2 : string)
    (Hw1 : all_chars is_js_space w1 = true)
    (Hw2 : all_chars is_js_space w2 = true)
    (Hfirst : forall c t', t = String c t' -> is_js_space c = false)
    (Hlast : forall t' c, t = t' ++ String c "" -> is_js_space c = false) :
  trim (w1 ++ t ++ w2) = t.
Proof.
  unfold trim. rewrite (trim_start_spaces w1 _ Hw1).
  destruct t as [|c0 t0] eqn:Ht.
  - cbn [append]. rewrite (trim_start_spaces_only w2 Hw2). reflexivity.
  - rewrite <- Ht. rewrite <- Ht in Hfirst, Hlast.
    assert (Hts : trim_start (t ++ w2) = t ++ w2).
    { rewrite Ht. cbn [append trim_start]. rewrite (Hfirst c0 t0 Ht). reflexivity. }
    rewrite Hts, string_rev_app.
    rewrite trim_start_spaces by (rewrite all_chars_rev; exact Hw2).
    destruct (string_nonempty_last t) as [t' [c Htc]]; [rewrite Ht; discriminate|].
    assert (Hrev : string_rev t = String c (string_rev t')).
    { rewrite Htc, string_rev_app. reflexivity. }
    rewrite Hrev. cbn [trim_start]. rewrite (Hlast t' c Htc).
    rewrite <- Hrev. apply string_rev_involutive.
Qed.


(** ** register always reports to its callback *)

Lemma dns_rounds_extend (endpoint : string) (token : val) rounds :
  appends_only (fun _ => true) (dns_challenge_rounds endpoint token rounds).
Proof.
  induction rounds as [|[d out] r IH]; simpl.
  - apply appends_only_ret.
  - apply appends_only_bind; [|intros _; exact IH].
    unfold leDnsResponse. repeat appends_only_step; reflexivity.
Qed.

Lemma subscribe_step_extends E email rt subdomain :
  appends_only (fun _ => true) (subscribe_step E email rt subdomain).
Proof. unfold subscribe_step. repeat (appends_only_step; try reflexivity). Qed.

Lemma issue_step_extends E email rt fulldomain optout token :
  appends_only (fun _ => true) (issue_step E email rt fulldomain optout token).
Proof.
  unfold issue_step, le_register, writeCertificates.
  repeat first [ appends_only_step | apply dns_rounds_extend | reflexivity ].
Qed.

Ltac added_callback :=
  match goal with
  | |- exists l v, (?t ++ ?l0)%list = (?t ++ l)%list /\ In (ECallback v) l =>
      exists l0; eexists; split; [reflexivity|];
      first
        [ solve [simpl; repeat first [left; reflexivity | right]]
        | solve [repeat (apply in_or_app; right); simpl;
                 repeat first [left; reflexivity | right]] ]
  end.

Lemma subscribe_step_returned (E : env) email rt subdomain (s : state) :
  snd (subscribe_step E email rt subdomain s) = Ok None ->
  exists l v, trace (fst (subscribe_step E email rt subdomain s)) = (trace s ++ l)%list /\
              In (ECallback v) l.
Proof.
  cbv [subscribe_step try_catch bind fetch emit ret throw res_text json_parse prop
       callback log_error settings_set].
  destruct (subscribe_out E) as [st [[j|txt]|e]|e]; cbn [fst snd trace];
    try (intros; rewrite <- !app_assoc; added_callback).
  destruct (get_prop j "error") as [err|te]; cbn [fst snd trace];
    try (intros; rewrite <- !app_assoc; added_callback).
  destruct (truthy err); cbn [fst snd trace];
    [intros; rewrite <- !app_assoc; added_callback|].
  destruct (get_prop j "token") as [tok|te]; cbn [fst snd trace];
    [|intros; rewrite <- !app_assoc; added_callback].
  destruct (settings_set_fail E); cbn [fst snd trace];
    [intros; rewrite <- !app_assoc; added_callback | discriminate].
Qed.

Lemma issue_step_returned (E : env) email rt fulldomain optout token (s : state) :
  snd (issue_step E email rt fulldomain optout token s) = Ok false ->
  exists l v, trace (fst (issue_step E email rt fulldomain optout token s)) =
              (trace s ++ l)%list /\ In (ECallback v) l.
Proof.
  destruct (issue_step E email rt fulldomain optout token s) as [s' r] eqn:Hi.
  cbn [fst snd]. intro Hr. subst r.
  unfold issue_step, try_catch at 1, bind at 1 in Hi.
  assert (Hl : appends_only (fun _ => true)
                 (le_register E fulldomain "dns-01"
                    (dns_challenge_rounds (registration_endpoint E) token (acme_rounds E)))).
  { unfold le_register. repeat first [appends_only_step | apply dns_rounds_extend | reflexivity]. }
  destruct (Hl s) as [l1 [Hx1 _]].
  destruct (le_register E fulldomain "dns-01"
              (dns_challenge_rounds (registration_endpoint E) token (acme_rounds E)) s)
    as [s1 [b|v]]; cbn [fst] in Hx1.
  2:{ revert Hi. cbv [log_error callback emit bind ret throw].
      destruct (registration_error_arg v); cbn [fst snd]; intro Hc; inversion Hc. }
  unfold bind at 1 in Hi.
  destruct (writeCertificates_extends E b s1) as [l2 Hx2].
  destruct (writeCertificates E b s1) as [s2 [u|w]]; cbn [fst] in Hx2.
  2:{ revert Hi. cbv [log_error callback emit bind ret throw].
      destruct (registration_error_arg w); cbn [fst snd]; intro Hc; inversion Hc. }
  destruct (negb (reclaimed rt)).
  2:{ revert Hi. cbv [ret]. intro Hc; inversion Hc. }
  revert Hi. cbv [try_catch bind fetch emit ret throw log_error callback].
  destruct (setemail_out E); cbn [fst snd trace]; [intro Hc; inversion Hc|].
  intro Hi. injection Hi as <-. cbn [trace].
  rewrite Hx2, Hx1, <- !app_assoc. added_callback.
Qed.

(** X14: Whenever register's promise resolves, the callback has been called
    at least once during the run: every path that ends without a rejection
    goes through a [callback(...)].  (The only rejection is the TypeError
    of the issuance catch block, see [register_issuance_error_message_edges].) *)
Theorem register_resolves_after_callback (E : env) (email : string)
    (rt : option string) (subdomain fulldomain : string) (optout : bool) (s : state)
    (Hok : snd (register E email rt subdomain fulldomain optout s) = Ok tt) :
  exists l v, trace (fst (register E email rt subdomain fulldomain optout s)) =
              (trace s ++ l)%list /\ In (ECallback v) l.
Proof.
  revert Hok.
  destruct (register E email rt subdomain fulldomain optout s) as [s' r] eqn:Hreg.
  cbn [fst snd]. intro Hr. subst r.
  unfold register, bind at 1 in Hreg.
  pose proof (subscribe_step_returned E email rt subdomain s) as Hret.
  destruct (subscribe_step_extends E email rt subdomain s) as [l1 [Hx1 _]].
  destruct (subscribe_step E email rt subdomain s) as [s1 [[token|]|v]];
    cbn [fst snd] in Hret, Hx1.
  - unfold bind at 1 in Hreg.
    pose proof (issue_step_returned E email rt fulldomain optout token s1) as Hret2.
    destruct (issue_step_extends E email rt fulldomain optout token s1) as [l2 [Hx2 _]].
    destruct (issue_step E email rt fulldomain optout token s1) as [s2 [[|]|v]];
      cbn [fst snd] in Hret2, Hx2.
    + revert Hreg. cbv [callback emit]. intro Hreg. injection Hreg as <-. cbn [trace].
      rewrite Hx2, Hx1, <- !app_assoc. added_callback.
    + revert Hreg. cbv [ret]. intro Hreg. injection Hreg as <-.
      destruct (Hret2 eq_refl) as [l [v [Ht Hin]]].
      exists (l1 ++ l)%list, v. split.
      * rewrite Ht, Hx1, <- app_assoc. reflexivity.
      * apply in_or_app. right. exact Hin.
    + inversion Hreg.
  - revert Hreg. cbv [ret]. intro Hreg. injection Hreg as <-. exact (Hret eq_refl).
  - inversion Hreg.
Qed.

(** ** How getRules settles *)

Lemma forallb_false_exists {T} (f : T -> bool) (l : list T) :
  forallb f l = false -> exists x, In x l /\ f x = false.
Proof.
  induction l as [|x l IH]; simpl; [discriminate|].
  destruct (f x) eqn:Hx; simpl.
  - intro H. destruct (IH H) as [y [Hy Hf]]. exists y. split; [right|]; assumption.
  - intros _. exists x. split; [left; reflexivity | exact Hx].
Qed.

Section GetRulesSettlement.

Import Rules.

Context (Desc : Type) (JSON_parse : string -> Desc) (migrate : Desc -> option Desc).

(** X16: Once the rows have been read, getRules never rejects: it resolves, or
    its promise stays pending forever exactly when one of the
    [updateRule] calls for a migrated row fails (the rejection of
    [Promise.all] has no handler, and [reject] is not called). *)
Theorem getRules_pending_iff_update_fails (rows : list row)
    (updateRule_ok : Z -> Desc -> bool) :
  let r := getRules Desc JSON_parse migrate (inl rows) updateRule_ok in
  (forall err, snd r <> Rejected Desc err) /\
  (snd r = Pending Desc <->
   exists u, In u (changed_rows Desc JSON_parse migrate rows) /\
             updateRule_ok (fst u) (snd u) = false).
Proof.
  cbv zeta. unfold getRules.
  pose proof (rows_loop_updates Desc JSON_parse migrate rows [] []) as Hups.
  destruct (rows_loop Desc JSON_parse migrate rows [] []) as [rules ups].
  cbn [snd] in Hups |- *. subst ups. cbn [app].
  destruct (forallb (fun u => updateRule_ok (fst u) (snd u))
              (changed_rows Desc JSON_parse migrate rows)) eqn:Hf.
  - split; [intros err H; discriminate|]. split; [discriminate|].
    intros [u [Hin Hu]]. rewrite forallb_forall in Hf.
    rewrite (Hf u Hin) in Hu. discriminate.
  - split; [intros err H; discriminate|]. split; [intros _|reflexivity].
    exact (forallb_false_exists _ _ Hf).
Qed.

End GetRulesSettlement.

(** ** A subscription answer without a token *)


(** ** Witnesses *)

Lemma renew_rejects_only_on_null_record_witness :
  renew ex_env (stored_state JNull) = (stored_state JNull, Throw (VErr type_error)).
Proof.
  apply (proj1 (renew_rejects_only_on_null_record ex_env (stored_state JNull)));
    reflexivity.
Defined.

Lemma renew_success_witness :
  snd (renew ex_env (stored_state ex_record)) = Ok tt /\
  bundle_on_disk ex_env (fst (renew ex_env (stored_state ex_record))) ex_bundle /\
  trace (fst (renew ex_env (stored_state ex_record))) =
    [EAcme "mygateway.example.com" "http-01" "certs@example.org";
     EWrite "/ssl/certificate.pem" "NEW-CERT";
     EWrite "/ssl/privatekey.pem" "NEW-KEY";
     EWrite "/ssl/chain.pem" "NEW-CHAIN"].
Proof.
  apply (renew_success ex_env (stored_state ex_record)
           [("name", JStr "mygateway"); ("token", JStr "abc123")] ex_bundle);
    reflexivity.
Defined.


Lemma renew_missing_name_requests_undefined_witness :
  snd (renew ex_env (stored_state (JObj [("token", JStr "abc123")]))) = Ok tt /\
  exists l, trace (fst (renew ex_env (stored_state (JObj [("token", JStr "abc123")])))) =
    (EAcme "undefined.example.com" "http-01" "certs@example.org" :: l)%list.
Proof.
  apply (renew_missing_name_requests_undefined ex_env
           (stored_state (JObj [("token", JStr "abc123")])) [("token", JStr "abc123")]);
    reflexivity.
Defined.

Lemma register_subscribe_failure_witness :
  register subscribe_fails_env "user@example.com" None "mygateway"
           "mygateway.example.com" false ex_state =
  (add_trace ex_state
     [EFetch (subscribe_url "https://api.example.org" "mygateway" "user@example.com" None);
      ELog "Failed to subscribe:"; ECallback (VErr econnreset)], Ok tt).
Proof.
  apply (proj1 (register_subscribe_failure subscribe_fails_env "user@example.com" None
                  "mygateway" "mygateway.example.com" false ex_state)).
  reflexivity.
Defined.

Lemma register_settings_failure_witness :
  register settings_fails_env "user@example.com" None "mygateway"
           "mygateway.example.com" false ex_state =
  (add_trace ex_state
     [EFetch (subscribe_url "https://api.example.org" "mygateway" "user@example.com" None);
      ELog "Failed to subscribe:"; ECallback (VErr eacces)], Ok tt).
Proof.
  apply (register_settings_failure settings_fails_env "user@example.com" None "mygateway"
           "mygateway.example.com" false ex_state 200 [("token", JStr "abc123")] eacces);
    reflexivity.
Defined.





Lemma register_resolves_after_callback_witness :
  exists l v, trace (fst (register ex_env "user@example.com" None "mygateway"
                                   "mygateway.example.com" false ex_state)) =
              (trace ex_state ++ l)%list /\ In (ECallback v) l.
Proof. apply register_resolves_after_callback. vm_compute. reflexivity. Defined.


(** ** No certificate without a bundle *)

Lemma keeps_bind_throws {X A B} (obs : state -> X) (m : M A) (k : A -> M B) :
  (forall s, exists v, snd (m s) = Throw v) -> keeps obs m -> keeps obs (bind m k).
Proof.
  intros Ht Hm s. unfold bind. destruct (Ht s) as [v Hv]. specialize (Hm s).
  destruct (m s) as [s1 r]. cbn [snd] in Hv. subst r. exact Hm.
Qed.

Lemma le_register_throws (E : env) (e : exn) (domain challengeType : string)
    (challenge : M unit) :
  acme_result E = inr e ->
  forall s, exists v, snd (le_register E domain challengeType challenge s) = Throw v.
Proof.
  intros Hacme s. unfold le_register, bind, emit.
  destruct (challenge _) as [s1 [u|v]]; cbn [snd].
  - rewrite Hacme. exists (VErr e). reflexivity.
  - exists v. reflexivity.
Qed.


